(** * Leonard_FigS10: mutation frequencies and their heatmap

    A shallow embedding of the two notebook cells of [Leonard_FigS10.ipynb]:
    [calculate_mutation_frequencies] (CSV of sequences -> table of per-position
    substitution frequencies) and [plot_mutation_heatmap_v6] (table -> drawing
    requests for matplotlib).

    Conventions of the embedding.
    - A Python [str] is a [string] and a character an [ascii]: the texts
      covered are those of one-byte characters; [len] is [String.length],
      [s[i]] is [String.get i s].
    - A Python [int] used as a counter is a [nat]; where it enters a division
      it is injected into [Z].
    - A Python [float] that the code computes is an IEEE 754 binary64
      value, carried as a [spec_float] with [prec = 53] and [emax = 1024];
      [int / int] is the correctly rounded quotient, computed by [SFdiv].
      A float that is only read, compared and printed (a cell of the table
      the heatmap is drawn from) is carried as the rational it denotes.
    - [mutation_counts], a [defaultdict] of [defaultdict(int)], is a
      [gmap nat (gmap ascii nat)] read with missing keys as zero.
    - [print] appends a line to a list of lines; a file that is written is
      returned as its path and the rows handed to [writerow], of which
      [csv_text] is the text.  Opening the output file can fail, as opening
      the input file can; writing rows to a file that is open succeeds. *)

From Stdlib Require Import ZArith QArith Ascii String DecimalString List Lia SpecFloat.
From stdpp Require Import gmap strings list.
Import ListNotations.

Local Open Scope string_scope.
Local Open Scope list_scope.

(** ** Python values and their text *)

Module Py.

(** [str(n)] for an integer: its decimal digits, after a minus sign for a
    negative one. *)
Definition str_int (n : Z) : string := NilZero.string_of_int (Z.to_int n).

Definition digit_char (d : Z) : ascii := ascii_of_nat (48 + Z.to_nat d).

(** The [k] low decimal digits of [n], most significant first: the
    fractional part of a fixed-point rendering. *)
Fixpoint low_digits (k : nat) (n : Z) : string :=
  match k with
  | O => ""
  | S k' => String (digit_char (n / 10 ^ Z.of_nat k' mod 10)) (low_digits k' n)
  end%Z.

(** binary64 *)
Definition prec : Z := 53.
Definition emax : Z := 1024.

Definition float_of_int (n : Z) : spec_float :=
  match n with
  | Z0 => S754_zero false
  | Zpos p => S754_finite false p 0
  | Zneg p => S754_finite true p 0
  end.

(** [a / b] on two ints (true division): the binary64 nearest to the exact
    quotient, ties to even.  The operands enter [SFdiv] as the integer
    mantissas themselves with exponent 0, so nothing is rounded before the
    division.  Python raises [ZeroDivisionError] for [b = 0]; every call
    below is guarded by [total_sequences == 0: return]. *)
Definition truediv (a b : Z) : spec_float :=
  SFdiv prec emax (float_of_int a) (float_of_int b).

(** Nearest integer to [n / d] for [d > 0], ties to even. *)
Definition div_half_even (n d : Z) : Z :=
  let q := (n / d)%Z in
  let r := (n mod d)%Z in
  match (2 * r ?= d)%Z with
  | Lt => q
  | Gt => (q + 1)%Z
  | Eq => if Z.even q then q else (q + 1)%Z
  end.

(** The magnitude [m * 2^e], in units of [10^-k], rounded to the nearest
    unit (ties to even) on the exact binary value, as [format] does. *)
Definition scaled (k : nat) (m : positive) (e : Z) : Z :=
  let n := (Z.pos m * 10 ^ Z.of_nat k)%Z in
  if (0 <=? e)%Z then (n * 2 ^ e)%Z else div_half_even n (2 ^ (- e)).

Definition fixed (k : nat) (u : Z) : string :=
  str_int (u / 10 ^ Z.of_nat k) +:+ "." +:+ low_digits k u.

Definition sign_prefix (s : bool) : string := if s then "-" else "".

(** [f"{x:.6f}"] and [f"{x:.2f}"]. *)
Definition format_f (k : nat) (x : spec_float) : string :=
  match x with
  | S754_zero s => sign_prefix s +:+ fixed k 0
  | S754_finite s m e => sign_prefix s +:+ fixed k (scaled k m e)
  | S754_infinity s => sign_prefix s +:+ "inf"
  | S754_nan => "nan"
  end.

(** [f"{x:.2f}"] for a finite float [x], given as the rational it is. *)
Definition format_Q (k : nat) (x : Q) : string :=
  sign_prefix (Qnum x <? 0)%Z
    +:+ fixed k (div_half_even (Z.abs (Qnum x) * 10 ^ Z.of_nat k) (Z.pos (Qden x))).

(** The number a fixed-point text with [k] decimals denotes. *)
Definition units (k : nat) (x : spec_float) : Z :=
  match x with
  | S754_finite false m e => scaled k m e
  | S754_finite true m e => - scaled k m e
  | _ => 0
  end.

End Py.

Example ex_str_int :
  map Py.str_int [0; 7; 10; 178; 1000000; -3]%Z = ["0"; "7"; "10"; "178"; "1000000"; "-3"].
Proof. reflexivity. Qed.

Example ex_truediv_third :
  Py.truediv 1 3 = S754_finite false 6004799503160661 (-54).
Proof. vm_compute. reflexivity. Qed.

Example ex_truediv_tenth :
  Py.truediv 1 10 = S754_finite false 7205759403792794 (-56).
Proof. vm_compute. reflexivity. Qed.

Example ex_format_6f :
  map (fun '(a, b) => Py.format_f 6 (Py.truediv a b))
      [(0, 4); (1, 4); (1, 3); (2, 3); (1, 6); (1, 128); (3, 128); (4, 4); (1, 2000000); (3, 2000000); (5, 2000000)]%Z
  = ["0.000000"; "0.250000"; "0.333333"; "0.666667"; "0.166667"; "0.007812";
     "0.023438"; "1.000000"; "0.000000"; "0.000002"; "0.000003"].
Proof. vm_compute. reflexivity. Qed.

(** ** calculate_mutation_frequencies *)

Module Calc.

(** The exceptions the function can meet, all of them subclasses of
    Python's [Exception], and [str(e)] as [f"...{e}"] interpolates it. *)
Inductive exception :=
| FileNotFoundError
| KeyError (key : string)
| TypeError (msg : string)
| OSError (msg : string).

Definition str_exception (e : exception) : string :=
  match e with
  | FileNotFoundError => "[Errno 2] No such file or directory"
  | KeyError key => "'" +:+ key +:+ "'"
  | TypeError msg => msg
  | OSError msg => msg
  end.

Definition amino_acids : string := "ACDEFGHIKLMNPQRSTVWY".

Abbreviation counts := (gmap nat (gmap ascii nat)).

(** [mutation_counts[i].get(aa, 0)]; the same number is what
    [mutation_counts[i][aa]] reads on the default dictionaries. *)
Definition get_count (mc : counts) (i : nat) (aa : ascii) : nat :=
  default 0 (default ∅ (mc !! i) !! aa).

(** [mutation_counts[i][aa] += 1] *)
Definition increment (mc : counts) (i : nat) (aa : ascii) : counts :=
  let row := default ∅ (mc !! i) in
  <[i := <[aa := S (default 0 (row !! aa))]> row]> mc.

(** *** The input file

    [open] either fails or gives the rows [csv.reader] parses from the
    file, the header row first; a blank line parses to the empty row. *)
Inductive input_file :=
| NoSuchFile
| CsvRows (lines : list (list string)).

(** [reader.fieldnames]: the first row, [None] on a file without rows. *)
Definition fieldnames (lines : list (list string)) : option (list string) :=
  head lines.

(** One dictionary of [csv.DictReader]: [dict(zip(fieldnames, row))], a
    later duplicate column overriding an earlier one, then every column the
    row is too short for set to [restval = None].  A value [None] is
    Python's [None].  (The [restkey] entry of an over-long row has the key
    [None], which no lookup here uses.) *)
Definition dict_row (fns row : list string) : gmap string (option string) :=
  foldr (fun key d => <[key := None]> d)
        (list_to_map (reverse (zip fns (Some <$> row))))
        (drop (length row) fns).

(** The dictionaries [for row in reader] yields: empty rows are skipped. *)
Definition reader_rows (lines : list (list string)) : list (gmap string (option string)) :=
  match lines with
  | [] => []
  | fns :: data =>
      dict_row fns <$> filter (fun row => row ≠ []) data
  end.

(** *** The counting loop *)

Record state := {
  mutation_counts : counts;
  total_sequences : nat;
  stdout : list string
}.

Definition print (line : string) (st : state) : state :=
  {| mutation_counts := mutation_counts st;
     total_sequences := total_sequences st;
     stdout := stdout st ++ [line] |}.

(** The body of [for i in range(sequence_length)].  It runs only with
    [i] below both lengths, so the last branch is never taken. *)
Definition compare_position (sequence base_sequence : string)
    (mc : counts) (i : nat) : counts :=
  match String.get i sequence, String.get i base_sequence with
  | Some s, Some b => if Ascii.eqb s b then mc else increment mc i s
  | _, _ => mc
  end.

Definition compare_sequence (sequence base_sequence : string) (mc : counts) : counts :=
  fold_left (compare_position sequence base_sequence)
            (seq 0 (String.length base_sequence)) mc.

Definition warning (sequence : string) : string :=
  "Warning: Sequence '" +:+ sequence +:+ "' has incorrect length. Skipping.".

(** The body of [for row in reader]. *)
Definition process_row (base_sequence : string) (st : state)
    (row : gmap string (option string)) : exception + state :=
  match row !! "sequence" with
  | None => inl (KeyError "sequence")
  | Some None => inl (TypeError "object of type 'NoneType' has no len()")
  | Some (Some sequence) =>
      if negb (String.length sequence =? String.length base_sequence)%nat
      then inr (print (warning sequence) st)
      else inr {| mutation_counts :=
                    compare_sequence sequence base_sequence (mutation_counts st);
                  total_sequences := S (total_sequences st);
                  stdout := stdout st |}
  end.

(** The loop: the state when it ends, and the exception that ended it. *)
Fixpoint process_rows (base_sequence : string) (st : state)
    (rows : list (gmap string (option string))) : state * option exception :=
  match rows with
  | [] => (st, None)
  | row :: rest =>
      match process_row base_sequence st row with
      | inl e => (st, Some e)
      | inr st' => process_rows base_sequence st' rest
      end
  end.

Definition initial : state :=
  {| mutation_counts := ∅; total_sequences := 0; stdout := [] |}.

(** *** The output file

    [open(output_csv_file, 'w', newline='')] creates or truncates the file,
    or raises: [FileNotFoundError] for the empty path and for a path into a
    directory that does not exist; another [OSError] (the path is a
    directory, permission is denied, ...) otherwise, [msg] being its
    [str(e)]. *)
Inductive output_file :=
| Writable
| NoSuchDirectory
| Unwritable (msg : string).

Definition open_w (f : output_file) : option exception :=
  match f with
  | Writable => None
  | NoSuchDirectory => Some FileNotFoundError
  | Unwritable msg => Some (OSError msg)
  end.



Definition symbols : list ascii := list_ascii_of_string amino_acids.

Definition header : list string :=
  "Position" :: map (fun aa => String aa "") symbols.

Definition frequency (mc : counts) (total : nat) (i : nat) (aa : ascii) : spec_float :=
  Py.truediv (Z.of_nat (get_count mc i aa)) (Z.of_nat total).

Definition frequency_row (mc : counts) (total : nat) (i : nat) : list string :=
  Py.str_int (Z.of_nat (i + 1))
    :: map (fun aa => Py.format_f 6 (frequency mc total i aa)) symbols.

Definition table (mc : counts) (total : nat) (sequence_length : nat) : list (list string) :=
  header :: map (frequency_row mc total) (seq 0 sequence_length).


(** *** The function *)

Record outcome := {
  printed : list string;
  written : option (string * list (list string));
  raised : option exception
}.

(** The [except] clauses: the line each exception prints, [None] for an
    exception no clause catches. *)
Definition except_clauses (input_csv_file : string) (e : exception) : option string :=
  match e with
  | FileNotFoundError => Some ("Error: Input file '" +:+ input_csv_file +:+ "' not found.")
  | _ => Some ("An unexpected error occurred: " +:+ str_exception e)
  end.

Definition handle (input_csv_file : string) (out : list string) (e : exception) : outcome :=
  match except_clauses input_csv_file e with
  | Some line => {| printed := out ++ [line]; written := None; raised := None |}
  | None => {| printed := out; written := None; raised := Some e |}
  end.

Definition calculate_mutation_frequencies (fs : string -> input_file)
    (disk : string -> output_file)
    (input_csv_file base_sequence output_csv_file : string) : outcome :=
  let sequence_length := String.length base_sequence in
  match fs input_csv_file with
  | NoSuchFile => handle input_csv_file [] FileNotFoundError
  | CsvRows lines =>
      match fieldnames lines with
      | None => handle input_csv_file []
                  (TypeError "argument of type 'NoneType' is not iterable")
      | Some fns =>
          if negb (existsb (String.eqb "sequence") fns) then
            {| printed := ["Error: 'sequences' column not found in '"
                             +:+ input_csv_file +:+ "'."];
               written := None; raised := None |}
          else
            match process_rows base_sequence initial (reader_rows lines) with
            | (st, Some e) => handle input_csv_file (stdout st) e
            | (st, None) =>
                if (total_sequences st =? 0)%nat then
                  {| printed := stdout st
                       ++ ["Error: No valid sequences found in the input file."];
                     written := None; raised := None |}
                else
                  match open_w (disk output_csv_file) with
                  | Some e => handle input_csv_file (stdout st) e
                  | None =>
                      {| printed := stdout st
                           ++ ["Mutation frequencies written to '"
                                 +:+ output_csv_file +:+ "'."];
                         written := Some (output_csv_file,
                                          table (mutation_counts st)
                                                (total_sequences st)
                                                sequence_length);
                         raised := None |}
                  end
            end
      end
  end.

End Calc.

(** ** What the counting loop computes *)

Module CalcSpec.
Import Calc.

(** The sequence at hand carries symbol [aa] at index [i] and the
    reference carries another symbol there. *)
Definition mismatch (base_sequence : string) (i : nat) (aa : ascii) (sequence : string) : bool :=
  match String.get i sequence, String.get i base_sequence with
  | Some s, Some b => negb (Ascii.eqb s b) && Ascii.eqb s aa
  | _, _ => false
  end.

(** The sequence differs from the reference at index [i]. *)
Definition differs (base_sequence : string) (i : nat) (sequence : string) : bool :=
  match String.get i sequence, String.get i base_sequence with
  | Some s, Some b => negb (Ascii.eqb s b)
  | _, _ => false
  end.

Definition valid (base_sequence sequence : string) : bool :=
  (String.length sequence =? String.length base_sequence)%nat.

Definition valid_sequences (base_sequence : string) (seqs : list string) : list string :=
  List.filter (valid base_sequence) seqs.

Definition skipped_sequences (base_sequence : string) (seqs : list string) : list string :=
  List.filter (fun s => negb (valid base_sequence s)) seqs.

(** Number of valid sequences with symbol [aa], not the reference's, at [i]. *)
Definition count_mismatches (base_sequence : string) (seqs : list string)
    (i : nat) (aa : ascii) : nat :=
  length (List.filter (mismatch base_sequence i aa) (valid_sequences base_sequence seqs)).

(** Number of valid sequences that differ from the reference at [i]. *)
Definition count_differing (base_sequence : string) (seqs : list string) (i : nat) : nat :=
  length (List.filter (differs base_sequence i) (valid_sequences base_sequence seqs)).

Definition canonical (aa : ascii) : bool := existsb (Ascii.eqb aa) symbols.

(** The sequence differs from the reference at index [i], and by one of
    the 20 symbols of [amino_acids]. *)
Definition differs_canonical (base_sequence : string) (i : nat) (sequence : string) : bool :=
  match String.get i sequence, String.get i base_sequence with
  | Some s, Some b => negb (Ascii.eqb s b) && canonical s
  | _, _ => false
  end.

Definition count_differing_canonical (base_sequence : string) (seqs : list string)
    (i : nat) : nat :=
  length (List.filter (differs_canonical base_sequence i)
                      (valid_sequences base_sequence seqs)).

(** The data cells of the row whose first field is [position]. *)
Definition data_cells (T : list (list string)) (position : Z) : option (list string) :=
  tail <$> List.find (fun row => bool_decide (head row = Some (Py.str_int position)))
                     (tail T).

(** The index of the column titled [symbol], counted after "Position". *)
Fixpoint column_index (symbol : string) (titles : list string) : option nat :=
  match titles with
  | [] => None
  | t :: titles' =>
      if String.eqb t symbol then Some 0 else S <$> column_index symbol titles'
  end.

(** The cell the table reports for [symbol] at [position]. *)
Definition reported (T : list (list string)) (position : Z) (symbol : string) : option string :=
  match head T with
  | Some (_ :: titles) =>
      match column_index symbol titles, data_cells T position with
      | Some k, Some cells => cells !! k
      | _, _ => None
      end
  | _ => None
  end.

Definition zeros : list string := replicate 20 "0.000000".

(** The sum of the numbers the 20 cells of row [i] denote, in units of
    [10^-6]. *)
Definition written_sum_units (mc : counts) (total : nat) (i : nat) : Z :=
  fold_right Z.add 0%Z (map (fun aa => Py.units 6 (frequency mc total i aa)) symbols).

(** A file of one column, "sequence", with one record per sequence. *)
Definition single_column (seqs : list string) : list (list string) :=
  ["sequence"] :: map (fun s => [s]) seqs.

(** The records of the file are [seqs]: each dictionary the reader
    yields has a text under "sequence". *)
Definition carries (rows : list (gmap string (option string))) (seqs : list string) : Prop :=
  Forall2 (fun row s => row !! "sequence" = Some (Some s)) rows seqs.

(** The table as a function of the sequences read. *)
Definition expected_row (base_sequence : string) (seqs : list string) (i : nat) : list string :=
  Py.str_int (Z.of_nat (i + 1))
    :: map (fun aa => Py.format_f 6
              (Py.truediv (Z.of_nat (count_mismatches base_sequence seqs i aa))
                          (Z.of_nat (length (valid_sequences base_sequence seqs)))))
           symbols.

Definition expected_table (base_sequence : string) (seqs : list string) : list (list string) :=
  header :: map (expected_row base_sequence seqs) (seq 0 (String.length base_sequence)).

(** What a run prints and writes when its records are [seqs] and opening
    the output path goes as [opened]. *)
Definition outcome_of (input_csv_file base_sequence output_csv_file : string)
    (opened : output_file) (seqs : list string) : outcome :=
  let warnings := map warning (skipped_sequences base_sequence seqs) in
  if (length (valid_sequences base_sequence seqs) =? 0)%nat then
    {| printed := warnings ++ ["Error: No valid sequences found in the input file."];
       written := None; raised := None |}
  else
    match opened with
    | Writable =>
        {| printed := warnings
                        ++ ["Mutation frequencies written to '" +:+ output_csv_file +:+ "'."];
           written := Some (output_csv_file, expected_table base_sequence seqs);
           raised := None |}
    | NoSuchDirectory =>
        {| printed := warnings ++ ["Error: Input file '" +:+ input_csv_file +:+ "' not found."];
           written := None; raised := None |}
    | Unwritable msg =>
        {| printed := warnings ++ ["An unexpected error occurred: " +:+ msg];
           written := None; raised := None |}
    end.

End CalcSpec.

Section Counting.
Import Calc CalcSpec.

Lemma get_count_empty i aa : get_count ∅ i aa = 0.
Proof. unfold get_count. rewrite lookup_empty. simpl. by rewrite lookup_empty. Qed.

Lemma get_count_increment (mc : counts) i s j aa :
  get_count (increment mc i s) j aa
  = get_count mc j aa + (if decide (i = j ∧ s = aa) then 1 else 0).
Proof.
  unfold get_count, increment.
  destruct (decide (i = j)) as [->|Hij].
  - rewrite lookup_insert_eq. simpl.
    destruct (decide (s = aa)) as [->|Hs].
    + rewrite lookup_insert_eq. simpl.
      rewrite decide_True by done. lia.
    + rewrite lookup_insert_ne by done.
      rewrite decide_False by tauto. lia.
  - rewrite lookup_insert_ne by done.
    rewrite decide_False by tauto. lia.
Qed.

Lemma get_out_of_range i (s : string) :
  String.length s <= i -> String.get i s = None.
Proof.
  revert i. induction s as [|c s IH]; intros i Hi; simpl in *.
  - by destruct i.
  - destruct i; [lia|]. apply IH. lia.
Qed.

Lemma mismatch_out_of_range base i aa sequence :
  String.length base <= i -> mismatch base i aa sequence = false.
Proof.
  intros Hi. unfold mismatch. rewrite (get_out_of_range i base Hi).
  by destruct (String.get i sequence).
Qed.

Lemma get_count_compare_position sequence base (mc : counts) i j aa :
  get_count (compare_position sequence base mc i) j aa
  = get_count mc j aa
    + (if decide (i = j) then if mismatch base i aa sequence then 1 else 0 else 0).
Proof.
  unfold compare_position, mismatch.
  destruct (String.get i sequence) as [s|]; [|destruct (decide _); simpl; lia].
  destruct (String.get i base) as [b|]; [|destruct (decide _); simpl; lia].
  destruct (Ascii.eqb s b) eqn:Hsb; simpl.
  - destruct (decide _); lia.
  - rewrite get_count_increment.
    destruct (decide (i = j)) as [->|Hij].
    + destruct (Ascii.eqb_spec s aa) as [->|Hne].
      * by rewrite decide_True.
      * rewrite decide_False; [done|tauto].
    + rewrite decide_False; [done|tauto].
Qed.

Lemma get_count_fold_positions sequence base n : forall a (mc : counts) j aa,
  get_count (fold_left (compare_position sequence base) (seq a n) mc) j aa
  = get_count mc j aa
    + (if decide (a <= j < a + n) then if mismatch base j aa sequence then 1 else 0 else 0).
Proof.
  induction n as [|n IH]; intros a mc j aa; simpl.
  - rewrite decide_False by lia. lia.
  - rewrite IH, get_count_compare_position.
    destruct (decide (a = j)) as [->|Haj].
    + rewrite decide_False by lia. rewrite decide_True by lia. lia.
    + destruct (decide (S a <= j < S a + n)).
      * rewrite decide_True by lia. lia.
      * rewrite decide_False by lia. lia.
Qed.

(** One valid sequence adds one to the count of each (index, symbol) pair
    at which it carries a symbol that is not the reference's. *)
Lemma get_count_compare_sequence sequence base (mc : counts) j aa :
  get_count (compare_sequence sequence base mc) j aa
  = get_count mc j aa + (if mismatch base j aa sequence then 1 else 0).
Proof.
  unfold compare_sequence. rewrite get_count_fold_positions.
  destruct (decide (0 <= j < 0 + String.length base)); [done|].
  rewrite mismatch_out_of_range by lia. done.
Qed.

Lemma process_rows_carries base rows seqs :
  carries rows seqs ->
  forall st,
    let r := process_rows base st rows in
    r.2 = None
    ∧ total_sequences r.1 = total_sequences st + length (valid_sequences base seqs)
    ∧ stdout r.1 = stdout st ++ map warning (skipped_sequences base seqs)
    ∧ ∀ j aa, get_count (mutation_counts r.1) j aa
              = get_count (mutation_counts st) j aa
                + length (List.filter (mismatch base j aa) (valid_sequences base seqs)).
Proof.
  induction 1 as [|row s rows seqs Hrow _ IH]; intros st; simpl.
  - repeat split; try lia. by rewrite app_nil_r.
  - unfold process_row. rewrite Hrow.
    unfold valid_sequences, skipped_sequences, valid in *. simpl.
    destruct (String.length s =? String.length base)%nat; simpl.
    + specialize (IH {| mutation_counts := compare_sequence s base (mutation_counts st);
                        total_sequences := S (total_sequences st);
                        stdout := stdout st |}).
      simpl in IH. destruct IH as (He & Ht & Ho & Hc).
      repeat split; try done; try lia.
      intros j aa. rewrite Hc, get_count_compare_sequence.
      destruct (mismatch base j aa s); simpl; lia.
    + specialize (IH (print (warning s) st)).
      simpl in IH. destruct IH as (He & Ht & Ho & Hc).
      repeat split; try done.
      by rewrite Ho, <- app_assoc.
Qed.

Lemma table_expected base seqs (mc : counts) total :
  total = length (valid_sequences base seqs) ->
  (∀ j aa, get_count mc j aa = count_mismatches base seqs j aa) ->
  table mc total (String.length base) = expected_table base seqs.
Proof.
  intros -> Hc. unfold table, expected_table. f_equal.
  apply map_ext. intros i. unfold frequency_row, expected_row, frequency. f_equal.
  apply map_ext. intros aa. by rewrite Hc.
Qed.

Lemma has_sequence_column fns :
  In "sequence" fns -> existsb (String.eqb "sequence") fns = true.
Proof.
  intros H. apply existsb_exists. exists "sequence". split; [done|].
  apply String.eqb_refl.
Qed.

(** The whole function on a file whose records all carry a sequence. *)
Lemma run_carries fs disk input_csv_file base output_csv_file lines fns seqs :
  fs input_csv_file = CsvRows lines ->
  fieldnames lines = Some fns ->
  In "sequence" fns ->
  carries (reader_rows lines) seqs ->
  calculate_mutation_frequencies fs disk input_csv_file base output_csv_file
  = outcome_of input_csv_file base output_csv_file (disk output_csv_file) seqs.
Proof.
  intros Hfs Hfn Hin Hrows. unfold calculate_mutation_frequencies, outcome_of.
  rewrite Hfs, Hfn, (has_sequence_column fns Hin). simpl.
  pose proof (process_rows_carries base _ _ Hrows initial) as H.
  destruct (process_rows base initial (reader_rows lines)) as [st e].
  simpl in H. destruct H as (-> & Ht & Ho & Hc).
  rewrite Ht, Ho.
  destruct (length (valid_sequences base seqs) =? 0)%nat; [done|].
  destruct (disk output_csv_file) as [| |msg]; [|done|done].
  simpl. f_equal. f_equal. f_equal.
  apply table_expected; [done|].
  intros j aa. rewrite Hc, get_count_empty. done.
Qed.

Lemma process_rows_no_exception base rows : forall st st',
  process_rows base st rows = (st', None) -> ∃ seqs, carries rows seqs.
Proof.
  induction rows as [|row rows IH]; intros st st' H; simpl in H.
  - exists []. constructor.
  - unfold process_row in H.
    destruct (row !! "sequence") as [[s|]|] eqn:Hrow; try discriminate.
    destruct (negb _); apply IH in H as [seqs Hseqs];
      exists (s :: seqs); by constructor.
Qed.

(** A run that writes its file read records that all carry a sequence,
    at least one of them of the reference's length, and could open its
    output. *)
Lemma run_success_inv fs disk input_csv_file base output_csv_file path T :
  written (calculate_mutation_frequencies fs disk input_csv_file base output_csv_file)
    = Some (path, T) ->
  ∃ lines fns seqs,
    fs input_csv_file = CsvRows lines
    ∧ fieldnames lines = Some fns
    ∧ In "sequence" fns
    ∧ carries (reader_rows lines) seqs
    ∧ 0 < length (valid_sequences base seqs)
    ∧ disk output_csv_file = Writable
    ∧ path = output_csv_file
    ∧ T = expected_table base seqs.
Proof.
  intros H.
  destruct (fs input_csv_file) as [|lines] eqn:Hfs;
    [by unfold calculate_mutation_frequencies in H; rewrite Hfs in H|].
  destruct (fieldnames lines) as [fns|] eqn:Hfn;
    [|by unfold calculate_mutation_frequencies in H; rewrite Hfs, Hfn in H].
  destruct (existsb (String.eqb "sequence") fns) eqn:Hex;
    [|by unfold calculate_mutation_frequencies in H; rewrite Hfs, Hfn, Hex in H].
  assert (Hin : In "sequence" fns).
  { apply existsb_exists in Hex as (x & Hx & Heq).
    apply String.eqb_eq in Heq. by subst. }
  destruct (process_rows base initial (reader_rows lines)) as [st [e|]] eqn:Hp.
  { unfold calculate_mutation_frequencies in H. rewrite Hfs, Hfn, Hex, Hp in H.
    simpl in H. unfold handle in H. by destruct e. }
  destruct (process_rows_no_exception _ _ _ _ Hp) as [seqs Hseqs].
  rewrite (run_carries _ _ _ _ _ _ _ _ Hfs Hfn Hin Hseqs) in H.
  exists lines, fns, seqs. unfold outcome_of in H.
  destruct (length (valid_sequences base seqs)) eqn:Hlen; simpl in H; [done|].
  destruct (disk output_csv_file) as [| |msg]; simpl in H; [|done|done].
  injection H as <- <-. repeat split; try done. lia.
Qed.

Lemma carries_single_column seqs :
  carries (reader_rows (single_column seqs)) seqs.
Proof.
  unfold single_column, reader_rows.
  induction seqs as [|s seqs IH]; [constructor|].
  rewrite map_cons, filter_cons_True, fmap_cons by done.
  constructor; [|done].
  unfold dict_row. simpl. by rewrite lookup_insert_eq.
Qed.

(** Sums over the 20 columns. *)
Lemma sum_list_pointwise {A} (f g : A -> nat) l :
  sum_list (map (fun x => f x + g x) l) = sum_list (map f l) + sum_list (map g l).
Proof. induction l as [|x l IH]; simpl; lia. Qed.

Lemma sum_list_indicator c (l : list ascii) :
  NoDup l ->
  sum_list (map (fun aa => if Ascii.eqb c aa then 1 else 0) l)
  = if existsb (Ascii.eqb c) l then 1 else 0.
Proof.
  induction 1 as [|x l Hx _ IH]; simpl; [done|].
  rewrite IH. destruct (Ascii.eqb_spec c x) as [->|Hne]; simpl; [|done].
  destruct (existsb (Ascii.eqb x) l) eqn:Hex; [|done].
  apply existsb_exists in Hex as (y & Hy & Heq).
  apply Ascii.eqb_eq in Heq. subst y. apply list_elem_of_In in Hy. done.
Qed.

Lemma sum_list_zero {A} (l : list A) : sum_list (map (fun _ => 0) l) = 0.
Proof. induction l; simpl; lia. Qed.

Lemma symbols_NoDup : NoDup symbols.
Proof. apply (bool_decide_eq_true_1 (NoDup symbols)). vm_compute. reflexivity. Qed.

Lemma sum_mismatch_one base i s :
  sum_list (map (fun aa => if mismatch base i aa s then 1 else 0) symbols)
  = if differs_canonical base i s then 1 else 0.
Proof.
  unfold mismatch, differs_canonical.
  destruct (String.get i s) as [c|]; [|apply sum_list_zero].
  destruct (String.get i base) as [b|]; [|apply sum_list_zero].
  destruct (Ascii.eqb c b); cbn [negb andb]; [apply sum_list_zero|].
  apply sum_list_indicator, symbols_NoDup.
Qed.

Lemma sum_mismatch_filter base i (l : list string) :
  sum_list (map (fun aa => length (List.filter (mismatch base i aa) l)) symbols)
  = length (List.filter (differs_canonical base i) l).
Proof.
  induction l as [|s l IH]; cbn [List.filter length]; [apply sum_list_zero|].
  transitivity
    (sum_list (map (fun aa => (if mismatch base i aa s then 1 else 0)
                              + length (List.filter (mismatch base i aa) l)) symbols)).
  { f_equal. apply map_ext. intros aa. by destruct (mismatch base i aa s). }
  rewrite sum_list_pointwise, IH, sum_mismatch_one.
  by destruct (differs_canonical base i s).
Qed.

Lemma filter_length_le {A} (f : A -> bool) l : length (List.filter f l) <= length l.
Proof. induction l as [|x l IH]; simpl; [lia|]. destruct (f x); simpl; lia. Qed.

Lemma sum_count_mismatches base seqs i :
  sum_list (map (count_mismatches base seqs i) symbols)
  = count_differing_canonical base seqs i.
Proof. apply sum_mismatch_filter. Qed.

Lemma count_mismatches_le base seqs i aa :
  count_mismatches base seqs i aa <= length (valid_sequences base seqs).
Proof. apply filter_length_le. Qed.

Lemma count_differing_canonical_le base seqs i :
  count_differing_canonical base seqs i <= length (valid_sequences base seqs).
Proof. apply filter_length_le. Qed.

End Counting.

(** ** A quotient of integers [0 <= a <= b] is a float in [0, 1]

    [SFdiv] shifts the quotient's mantissa right and rounds it; a mantissa
    that, counted with its round and sticky bits, is at most [2^n] stays so
    through every shift and through the rounding. *)

Section Quotient.
Local Open Scope Z_scope.

(** The mantissa, plus one when the record is inexact. *)
Definition upper (mrs : shr_record) : Z :=
  shr_m mrs + (if shr_r mrs || shr_s mrs then 1 else 0).

Definition below (n : Z) (mrs : shr_record) : Prop :=
  0 <= shr_m mrs ∧ upper mrs <= 2 ^ n.

(** A float that is zero or of magnitude at most one. *)
Definition at_most_one (x : spec_float) : Prop :=
  match x with
  | S754_zero _ => True
  | S754_finite _ m e => e <= 0 ∧ Z.pos m <= 2 ^ (- e)
  | _ => False
  end.

Definition sign_of (x : spec_float) : option bool :=
  match x with
  | S754_zero s | S754_finite s _ _ | S754_infinity s => Some s
  | S754_nan => None
  end.

Lemma shr_1_below n mrs : 0 <= n -> below (n + 1) mrs -> below n (shr_1 mrs).
Proof.
  intros Hn [Hm Hu]. unfold below, upper in *.
  rewrite Z.pow_add_r, Z.pow_1_r in Hu by lia.
  destruct mrs as [m r s]. simpl in *.
  destruct m as [|[p|p|]|p]; try lia; simpl;
    destruct r, s; simpl in *; lia.
Qed.

Lemma iter_shr_1_below p : forall n mrs,
  0 <= n -> below (n + Z.pos p) mrs -> below n (SpecFloat.iter_pos shr_1 p mrs).
Proof.
  induction p as [p IH|p IH|]; intros n mrs Hn H; simpl.
  - apply IH; [done|]. apply IH; [lia|]. apply shr_1_below; [lia|].
    replace (n + Z.pos p + Z.pos p + 1) with (n + Z.pos p~1) by lia. done.
  - apply IH; [done|]. apply IH; [lia|].
    replace (n + Z.pos p + Z.pos p) with (n + Z.pos p~0) by lia. done.
  - by apply shr_1_below.
Qed.

Lemma digits2_pos_lower p : 2 ^ (Z.pos (digits2_pos p) - 1) <= Z.pos p.
Proof.
  induction p as [p IH|p IH|]; simpl; [| |done];
    rewrite Pos2Z.inj_succ;
    replace (Z.succ (Z.pos (digits2_pos p)) - 1) with (Z.succ (Z.pos (digits2_pos p) - 1)) by lia;
    rewrite Z.pow_succ_r by lia; lia.
Qed.

Lemma Zdigits2_upper m n : 0 <= n -> 0 <= m <= 2 ^ n -> Zdigits2 m <= n + 1.
Proof.
  intros Hn [Hm Hle]. destruct m as [|p|p]; simpl; [lia| |lia].
  pose proof (digits2_pos_lower p) as Hd.
  assert (Hpow : 2 ^ (Z.pos (digits2_pos p) - 1) <= 2 ^ n) by lia.
  apply Z.pow_le_mono_r_iff in Hpow; lia.
Qed.

Lemma shr_m_of_loc m l : shr_m (shr_record_of_loc m l) = m.
Proof. by destruct l as [|[]]. Qed.

Lemma shr_fexp_below m e l :
  e <= 0 -> below (- e) (shr_record_of_loc m l) ->
  (shr_fexp Py.prec Py.emax m e l).2 <= 0
  ∧ below (- (shr_fexp Py.prec Py.emax m e l).2) (shr_fexp Py.prec Py.emax m e l).1.
Proof.
  intros He Hb. unfold shr_fexp, shr.
  assert (Hd : Zdigits2 m <= - e + 1).
  { apply Zdigits2_upper; [lia|]. destruct Hb as [Hm Hu]. unfold upper in Hu.
    rewrite shr_m_of_loc in Hm, Hu.
    destruct (shr_r _ || shr_s _); lia. }
  assert (Hf : fexp Py.prec Py.emax (Zdigits2 m + e) <= 0).
  { unfold fexp, emin, Py.prec, Py.emax. lia. }
  destruct (fexp Py.prec Py.emax (Zdigits2 m + e) - e) as [|k|k] eqn:Hk; simpl;
    [done| |done].
  split; [lia|]. apply iter_shr_1_below; [lia|].
  replace (- (e + Z.pos k) + Z.pos k) with (- e) by lia. done.
Qed.

Lemma round_nearest_even_below n mrs :
  below n mrs ->
  0 <= round_nearest_even (shr_m mrs) (loc_of_shr_record mrs) <= 2 ^ n.
Proof.
  intros [Hm Hu]. unfold upper in Hu. destruct mrs as [m r s]. simpl in *.
  destruct r, s; simpl in *; try lia.
  destruct (Z.even m); lia.
Qed.

Lemma binary_round_aux_below sx mx ex lx :
  ex <= 0 -> below (- ex) (shr_record_of_loc mx lx) ->
  at_most_one (binary_round_aux Py.prec Py.emax sx mx ex lx)
  ∧ sign_of (binary_round_aux Py.prec Py.emax sx mx ex lx) = Some sx.
Proof.
  intros He Hb. unfold binary_round_aux.
  pose proof (shr_fexp_below mx ex lx He Hb) as H1.
  destruct (shr_fexp Py.prec Py.emax mx ex lx) as [mrs' e']. simpl in H1.
  destruct H1 as [He' Hb'].
  pose proof (round_nearest_even_below _ _ Hb') as Hr.
  set (m1 := round_nearest_even (shr_m mrs') (loc_of_shr_record mrs')) in *.
  assert (Hb1 : below (- e') (shr_record_of_loc m1 loc_Exact)).
  { unfold below, upper. simpl. lia. }
  pose proof (shr_fexp_below m1 e' loc_Exact He' Hb1) as H2.
  destruct (shr_fexp Py.prec Py.emax m1 e' loc_Exact) as [mrs'' e'']. simpl in H2.
  destruct H2 as [He'' [Hm'' Hu'']]. unfold upper in Hu''.
  destruct (shr_m mrs'') as [|m|m] eqn:Hm; simpl; [done| |lia].
  assert (Hle : (e'' <=? Py.emax - Py.prec) = true).
  { apply Z.leb_le. unfold Py.emax, Py.prec. lia. }
  rewrite Hle. simpl. split; [|done]. split; [done|].
  destruct (shr_r mrs'' || shr_s mrs''); lia.
Qed.

Lemma new_location_zero n r :
  new_location n r = if r =? 0 then loc_Exact else new_location n r.
Proof.
  unfold new_location, new_location_even, new_location_odd.
  destruct (Z.even n), (r =? 0); done.
Qed.

Lemma upper_of_loc m l :
  upper (shr_record_of_loc m l) = m + match l with loc_Exact => 0 | _ => 1 end.
Proof. by destruct l as [|[]]. Qed.

Lemma div_core_below (a b : positive) :
  Z.pos a <= Z.pos b ->
  let '(q, e, l) := SFdiv_core_binary Py.prec Py.emax (Z.pos a) 0 (Z.pos b) 0 in
  e <= 0 ∧ below (- e) (shr_record_of_loc q l).
Proof.
  intros Hab. unfold SFdiv_core_binary.
  set (e := Z.min (fexp Py.prec Py.emax
                     (Zdigits2 (Z.pos a) + 0 - (Zdigits2 (Z.pos b) + 0))) (0 - 0)).
  assert (He : e <= 0) by (unfold e; lia).
  set (m' := match 0 - 0 - e with
             | 0 => Z.pos a
             | Z.pos _ => Z.shiftl (Z.pos a) (0 - 0 - e)
             | Z.neg _ => 0
             end).
  assert (Hm' : m' = Z.pos a * 2 ^ (- e)).
  { unfold m'. replace (0 - 0 - e) with (- e) by lia.
    destruct (- e) as [|k|k] eqn:Hk; [simpl; lia| |lia].
    rewrite Z.shiftl_mul_pow2; lia. }
  clearbody m' e.
  pose proof (Z_div_mod m' (Z.pos b) eq_refl) as Hdm.
  destruct (Z.div_eucl m' (Z.pos b)) as [q r]. destruct Hdm as [Hq Hr].
  split; [done|].
  assert (Hpow : 0 < 2 ^ (- e)) by (apply Z.pow_pos_nonneg; lia).
  assert (Hq0 : 0 <= q) by nia.
  unfold below. rewrite shr_m_of_loc, upper_of_loc. split; [done|].
  rewrite new_location_zero.
  destruct (Z.eqb_spec r 0) as [->|Hr0].
  - nia.
  - assert (q < 2 ^ (- e)) by nia.
    destruct (new_location (Z.pos b) r); lia.
Qed.

(** [count / total] with [0 <= count <= total], [0 < total]: a float that
    is not negative and at most one. *)
Lemma truediv_at_most_one a b :
  0 <= a <= b -> 0 < b ->
  at_most_one (Py.truediv a b) ∧ sign_of (Py.truediv a b) = Some false.
Proof.
  intros [Ha Hab] Hb. unfold Py.truediv.
  destruct b as [|b|b]; try lia. destruct a as [|a|a]; try lia; simpl; [done|].
  pose proof (div_core_below a b Hab) as H.
  destruct (SFdiv_core_binary Py.prec Py.emax (Z.pos a) 0 (Z.pos b) 0) as [[q e] l].
  destruct H as [He Hbelow]. by apply binary_round_aux_below.
Qed.

Lemma truediv_zero b : 0 < b -> Py.truediv 0 b = S754_zero false.
Proof. intros Hb. destruct b; try lia. reflexivity. Qed.

Lemma div_half_even_bounds n d c :
  0 < d -> 0 <= n <= c * d -> 0 <= Py.div_half_even n d <= c.
Proof.
  intros Hd [Hn Hle]. unfold Py.div_half_even.
  pose proof (Z.div_mod n d ltac:(lia)) as Hdm.
  pose proof (Z.mod_pos_bound n d Hd) as Hr.
  assert (Hq0 : 0 <= n / d) by (apply Z.div_pos; lia).
  assert (Hqc : n / d <= c) by (apply Z.div_le_upper_bound; lia).
  destruct (Z.compare_spec (2 * (n mod d)) d) as [Heq|Hlt|Hgt]; [|lia|].
  - destruct (Z.even (n / d)); [lia|]. nia.
  - nia.
Qed.

(** The text written for such a float denotes a number of [10^-k]
    units between [0] and [10^k]. *)
Lemma scaled_at_most_one k m e :
  e <= 0 -> Z.pos m <= 2 ^ (- e) -> 0 <= Py.scaled k m e <= 10 ^ Z.of_nat k.
Proof.
  intros He Hm. unfold Py.scaled.
  assert (Hk : 0 < 10 ^ Z.of_nat k) by (apply Z.pow_pos_nonneg; lia).
  destruct (Z.leb_spec 0 e).
  - assert (e = 0) as -> by lia. simpl in *. nia.
  - apply div_half_even_bounds; [apply Z.pow_pos_nonneg; lia|]. nia.
Qed.

(** *** How far the quotient is rounded

    The float computed for [a / b] with [0 <= a <= b] exceeds the exact
    quotient by at most [2^-52]. *)

Lemma shr_1_floor mrs :
  0 <= shr_m mrs -> 0 <= shr_m (shr_1 mrs) ∧ 2 * shr_m (shr_1 mrs) <= shr_m mrs.
Proof. destruct mrs as [m r s]. destruct m as [|[p|p|]|p]; simpl; lia. Qed.

Lemma iter_shr_1_floor p : forall mrs,
  0 <= shr_m mrs ->
  0 <= shr_m (SpecFloat.iter_pos shr_1 p mrs)
  ∧ 2 ^ Z.pos p * shr_m (SpecFloat.iter_pos shr_1 p mrs) <= shr_m mrs.
Proof.
  induction p as [p IH|p IH|]; intros mrs Hm; simpl SpecFloat.iter_pos.
  - destruct (shr_1_floor mrs Hm) as [H1 H1'].
    destruct (IH _ H1) as [H2 H2']. destruct (IH _ H2) as [H3 H3'].
    split; [done|].
    replace (Z.pos p~1) with (Z.pos p + Z.pos p + 1) by lia.
    rewrite !Z.pow_add_r, Z.pow_1_r by lia.
    assert (0 < 2 ^ Z.pos p) by (apply Z.pow_pos_nonneg; lia). nia.
  - destruct (IH _ Hm) as [H2 H2']. destruct (IH _ H2) as [H3 H3'].
    split; [done|].
    replace (Z.pos p~0) with (Z.pos p + Z.pos p) by lia.
    rewrite !Z.pow_add_r by lia.
    assert (0 < 2 ^ Z.pos p) by (apply Z.pow_pos_nonneg; lia). nia.
  - destruct (shr_1_floor mrs Hm). split; [done|]. change (2 ^ 1) with 2. lia.
Qed.

Lemma shr_fexp_floor m e l :
  0 <= m ->
  let r := shr_fexp Py.prec Py.emax m e l in
  r.2 = Z.max e (fexp Py.prec Py.emax (Zdigits2 m + e))
  ∧ 0 <= shr_m r.1
  ∧ 2 ^ (r.2 - e) * shr_m r.1 <= m.
Proof.
  intros Hm. unfold shr_fexp, shr.
  destruct (fexp Py.prec Py.emax (Zdigits2 m + e) - e) as [|k|k] eqn:Hk; simpl.
  - rewrite shr_m_of_loc, Z.sub_diag. simpl. split; [lia|]. split; lia.
  - pose proof (iter_shr_1_floor k (shr_record_of_loc m l)) as H.
    rewrite shr_m_of_loc in H. destruct (H Hm) as [H1 H2].
    split; [lia|]. split; [done|].
    replace (e + Z.pos k - e) with (Z.pos k) by lia. done.
  - rewrite shr_m_of_loc, Z.sub_diag. simpl. split; [lia|]. split; lia.
Qed.

Lemma round_nearest_even_succ m l :
  0 <= m -> 0 <= round_nearest_even m l <= m + 1.
Proof. intros Hm. destruct l as [|[]]; simpl; try lia. destruct (Z.even m); lia. Qed.

Lemma binary_round_aux_error sx mx ex lx :
  0 <= mx ->
  match binary_round_aux Py.prec Py.emax sx mx ex lx with
  | S754_finite _ m e =>
      let e1 := Z.max ex (fexp Py.prec Py.emax (Zdigits2 mx + ex)) in
      e1 <= e ∧ 2 ^ (e - ex) * Z.pos m <= mx + 2 ^ (e1 - ex)
  | _ => True
  end.
Proof.
  intros Hmx. unfold binary_round_aux.
  pose proof (shr_fexp_floor mx ex lx Hmx) as H1.
  destruct (shr_fexp Py.prec Py.emax mx ex lx) as [mrs' e']. simpl in H1.
  destruct H1 as (He' & Hm' & Hle').
  pose proof (round_nearest_even_succ (shr_m mrs') (loc_of_shr_record mrs') Hm') as Hr.
  set (m1 := round_nearest_even (shr_m mrs') (loc_of_shr_record mrs')) in *.
  pose proof (shr_fexp_floor m1 e' loc_Exact ltac:(lia)) as H2.
  destruct (shr_fexp Py.prec Py.emax m1 e' loc_Exact) as [mrs'' e'']. simpl in H2.
  destruct H2 as (He'' & Hm'' & Hle'').
  destruct (shr_m mrs'') as [|m|m] eqn:Hm; [done| |done].
  destruct (e'' <=? Py.emax - Py.prec); [|done].
  rewrite <- He'. split; [lia|].
  replace (e'' - ex) with ((e'' - e') + (e' - ex)) by lia.
  rewrite Z.pow_add_r by lia.
  assert (0 < 2 ^ (e' - ex)) by (apply Z.pow_pos_nonneg; lia).
  assert (0 < 2 ^ (e'' - e')) by (apply Z.pow_pos_nonneg; lia).
  nia.
Qed.

Lemma digits2_pos_upper p : Z.pos p < 2 ^ Z.pos (digits2_pos p).
Proof.
  induction p as [p IH|p IH|]; simpl; [| |done];
    rewrite Pos2Z.inj_succ, Z.pow_succ_r by lia; lia.
Qed.

Lemma digits2_pos_mono a b :
  Z.pos a <= Z.pos b -> Z.pos (digits2_pos a) <= Z.pos (digits2_pos b).
Proof.
  intros Hab.
  pose proof (digits2_pos_lower a). pose proof (digits2_pos_upper b).
  assert (Hpow : 2 ^ (Z.pos (digits2_pos a) - 1) < 2 ^ Z.pos (digits2_pos b)) by lia.
  apply Z.pow_lt_mono_r_iff in Hpow; lia.
Qed.

(** [x * b <= a + b * 2^-52] for the float [x] computed for [a / b]. *)
Lemma truediv_error a b :
  0 <= a <= b -> 0 < b ->
  match Py.truediv a b with
  | S754_finite _ m e => 2 ^ 52 * (Z.pos m * b) <= (2 ^ 52 * a + b) * 2 ^ (- e)
  | _ => True
  end.
Proof.
  intros [Ha Hab] Hb. unfold Py.truediv.
  destruct b as [|b|b]; try lia. destruct a as [|a|a]; try lia; simpl; [done|].
  pose proof (div_core_below a b Hab) as Hbelow.
  unfold SFdiv_core_binary in *.
  set (e := Z.min (fexp Py.prec Py.emax
                     (Zdigits2 (Z.pos a) + 0 - (Zdigits2 (Z.pos b) + 0))) (0 - 0)) in *.
  assert (He53 : e <= -53).
  { unfold e, fexp, emin, Py.prec, Py.emax. simpl Zdigits2.
    pose proof (digits2_pos_mono a b Hab). lia. }
  set (m' := match 0 - 0 - e with
             | 0 => Z.pos a
             | Z.pos _ => Z.shiftl (Z.pos a) (0 - 0 - e)
             | Z.neg _ => 0
             end) in *.
  assert (Hm' : m' = Z.pos a * 2 ^ (- e)).
  { unfold m'. replace (0 - 0 - e) with (- e) by lia.
    destruct (- e) as [|k|k] eqn:Hk; [simpl; lia| |lia].
    rewrite Z.shiftl_mul_pow2; lia. }
  clearbody m' e.
  pose proof (Z_div_mod m' (Z.pos b) eq_refl) as Hdm.
  destruct (Z.div_eucl m' (Z.pos b)) as [q r]. destruct Hdm as [Hq Hr].
  destruct Hbelow as [_ Hbelow].
  assert (HA : 0 < 2 ^ (- e)) by (apply Z.pow_pos_nonneg; lia).
  assert (Hq0 : 0 <= q) by nia.
  pose proof (binary_round_aux_below false q e (new_location (Z.pos b) r)
                ltac:(lia) Hbelow) as [Hone _].
  pose proof (binary_round_aux_error false q e (new_location (Z.pos b) r) Hq0) as Herr.
  destruct (binary_round_aux Py.prec Py.emax false q e (new_location (Z.pos b) r))
    as [| | |s m e3]; try done.
  simpl in Hone. destruct Hone as [He3 _]. simpl in Herr.
  set (e1 := Z.max e (fexp Py.prec Py.emax (Zdigits2 q + e))) in *.
  destruct Herr as [He1 Herr].
  assert (He1' : e1 <= -52).
  { destruct Hbelow as [_ Hu]. rewrite upper_of_loc in Hu.
    assert (Hd : Zdigits2 q <= - e + 1).
    { apply Zdigits2_upper; [lia|]. destruct (new_location _ _); lia. }
    unfold e1, fexp, emin, Py.prec, Py.emax. lia. }
  (* with A = 2^-e, B = 2^-e3, G = 2^(e3-e), E = 2^(e1-e): A = B G, 2^52 E <= A *)
  assert (HG : 0 < 2 ^ (e3 - e)) by (apply Z.pow_pos_nonneg; lia).
  assert (HAB : 2 ^ (- e) = 2 ^ (- e3) * 2 ^ (e3 - e)).
  { rewrite <- Z.pow_add_r by lia. f_equal. lia. }
  assert (HE : 2 ^ 52 * 2 ^ (e1 - e) <= 2 ^ (- e)).
  { rewrite <- Z.pow_add_r by lia. apply Z.pow_le_mono_r; lia. }
  apply (Z.mul_le_mono_pos_r _ _ (2 ^ (e3 - e)) HG).
  replace ((2 ^ 52 * Z.pos a + Z.pos b) * 2 ^ (- e3) * 2 ^ (e3 - e))
    with ((2 ^ 52 * Z.pos a + Z.pos b) * 2 ^ (- e)) by (rewrite HAB; ring).
  assert (H52 : 0 < 2 ^ 52) by done.
  nia.
Qed.

Lemma div_half_even_upper n d :
  0 < d -> 0 <= n -> 2 * (Py.div_half_even n d * d) <= 2 * n + d.
Proof.
  intros Hd Hn. unfold Py.div_half_even.
  pose proof (Z.div_mod n d ltac:(lia)) as Hdm.
  pose proof (Z.mod_pos_bound n d Hd) as Hr.
  destruct (Z.compare_spec (2 * (n mod d)) d) as [Heq|Hlt|Hgt]; [|nia|nia].
  destruct (Z.even (n / d)); nia.
Qed.

(** The number of [10^-6] units written for [a / b] is at most
    [10^6 * a / b + 1/2 + 10^6 * 2^-52]. *)
Lemma units_error a b :
  0 <= a <= b -> 0 < b ->
  2 ^ 53 * (Py.units 6 (Py.truediv a b) * b)
  <= 2 ^ 53 * 1000000 * a + (2 * 1000000 + 2 ^ 52) * b.
Proof.
  intros Hab Hb.
  pose proof (truediv_error a b Hab Hb) as Herr.
  destruct (truediv_at_most_one a b Hab Hb) as [Hone Hs].
  destruct (Py.truediv a b) as [s|s| |s m e]; simpl in *; try done; try lia.
  injection Hs as ->. destruct Hone as [He Hm]. unfold Py.scaled.
  assert (HD : 0 < 2 ^ (- e)) by (apply Z.pow_pos_nonneg; lia).
  change (10 ^ Z.of_nat 6) with 1000000.
  destruct (Z.leb_spec 0 e).
  - assert (e = 0) as -> by lia. simpl in *. nia.
  - pose proof (div_half_even_upper (Z.pos m * 1000000) (2 ^ (- e)) HD ltac:(lia)) as Hu.
    set (u := Py.div_half_even (Z.pos m * 1000000) (2 ^ (- e))) in *.
    apply (Z.mul_le_mono_pos_r _ _ (2 ^ (- e)) HD).
    change (2 ^ 53) with (2 * 2 ^ 52) in *.
    assert (H52 : 0 < 2 ^ 52) by done.
    nia.
Qed.

End Quotient.

(** ** The properties of calculate_mutation_frequencies *)

Section CalcProperties.
Import Calc CalcSpec.

Definition scenario : list string := ["AAAA"; "ABAA"; "AABA"; "AAAA"].
Definition scenario_C : list string := ["AAAA"; "ACAA"; "AACA"; "AAAA"].

(** A file system with one file, "sequences.csv". *)
Definition one_file (lines : list (list string)) (path : string) : input_file :=
  if String.eqb path "sequences.csv" then CsvRows lines else NoSuchFile.

(** A disk on which files can be created in the working directory only:
    the empty path and a path with a directory part do not open. *)
Definition flat_disk (path : string) : output_file :=
  if (String.length path =? 0)%nat || existsb (Ascii.eqb "/") (list_ascii_of_string path)
  then NoSuchDirectory else Writable.

Definition run_on (base_sequence : string) (seqs : list string) : outcome :=
  calculate_mutation_frequencies (one_file (single_column seqs)) flat_disk
    "sequences.csv" base_sequence "mutation_frequencies.csv".

Lemma valid_sequences_app base l1 l2 :
  valid_sequences base (l1 ++ l2) = valid_sequences base l1 ++ valid_sequences base l2.
Proof. apply List.filter_app. Qed.

Lemma skipped_sequences_app base l1 l2 :
  skipped_sequences base (l1 ++ l2)
  = skipped_sequences base l1 ++ skipped_sequences base l2.
Proof. apply List.filter_app. Qed.


Lemma run_on_eq base seqs :
  run_on base seqs
  = if (length (valid_sequences base seqs) =? 0)%nat then
      {| printed := map warning (skipped_sequences base seqs)
                      ++ ["Error: No valid sequences found in the input file."];
         written := None; raised := None |}
    else
      {| printed := map warning (skipped_sequences base seqs)
                      ++ ["Mutation frequencies written to 'mutation_frequencies.csv'."];
         written := Some ("mutation_frequencies.csv", expected_table base seqs);
         raised := None |}.
Proof.
  unfold run_on.
  rewrite (run_carries _ _ _ _ _ (single_column seqs) ["sequence"] seqs);
    [reflexivity|done|done|by left|apply carries_single_column].
Qed.

Lemma expected_table_skip base l1 s l2 :
  valid base s = false ->
  expected_table base (l1 ++ s :: l2) = expected_table base (l1 ++ l2).
Proof.
  intros Hs. unfold expected_table, expected_row, count_mismatches.
  rewrite !valid_sequences_app. unfold valid_sequences at 2 5. simpl. rewrite Hs.
  done.
Qed.

(** C1, as the specification states it, fails: "B" is not one of the 20
    columns, so the table reports nothing for it. *)
Lemma C1_counterexample :
  ¬ (∃ T, written (run_on "AAAA" scenario) = Some ("mutation_frequencies.csv", T)
          ∧ reported T 2 "B" = Some "0.250000"
          ∧ reported T 3 "B" = Some "0.250000"
          ∧ data_cells T 1 = Some zeros
          ∧ data_cells T 4 = Some zeros).
Proof.
  intros (T & HT & H2 & _).
  vm_compute in HT. injection HT as <-.
  vm_compute in H2. discriminate.
Qed.

Lemma run_on_insert_skipped base l s k :
  valid base s = false ->
  skipped_sequences base l = [] ->
  0 < length (valid_sequences base l) ->
  run_on base (take k l ++ s :: drop k l)
  = {| printed := [warning s;
                   "Mutation frequencies written to 'mutation_frequencies.csv'."];
       written := written (run_on base l);
       raised := None |}.
Proof.
  intros Hs Hl Hpos.
  assert (Hsk : skipped_sequences base (take k l) = []
                ∧ skipped_sequences base (drop k l) = []).
  { apply app_eq_nil. by rewrite <- skipped_sequences_app, take_drop. }
  destruct Hsk as [Htake Hdrop].
  assert (Hskip : skipped_sequences base (s :: drop k l) = [s]).
  { unfold skipped_sequences in *. cbn [List.filter]. rewrite Hs. cbn [negb].
    by rewrite Hdrop. }
  assert (Hvalid : valid_sequences base (s :: drop k l) = valid_sequences base (drop k l)).
  { unfold valid_sequences. cbn [List.filter]. by rewrite Hs. }
  rewrite !run_on_eq, expected_table_skip, take_drop by done.
  rewrite valid_sequences_app, skipped_sequences_app, Htake, Hskip, Hvalid.
  rewrite <- valid_sequences_app, take_drop.
  destruct (length (valid_sequences base l)); [lia|]. reflexivity.
Qed.

(** C1 (amended).  Reference "AAAA", rows AAAA, ABAA, AABA, AAAA: the count
    map records B once at the 1-indexed positions 2 and 3, of 4 sequences
    counted, but B has no column and the four rows written are all zero.
    With C in place of B the table reports C at positions 2 and 3 as
    0.250000 and rows 1 and 4 all zero.  In both runs a further row of
    length 3, wherever it stands, is skipped with a warning and leaves the
    table, and so the denominator 4, as it was. *)
Theorem C1_scenario :
  (written (run_on "AAAA" scenario)
     = Some ("mutation_frequencies.csv",
             header :: map (fun i => Py.str_int i :: zeros) [1; 2; 3; 4]%Z)
   ∧ let st := (process_rows "AAAA" initial (reader_rows (single_column scenario))).1 in
     total_sequences st = 4
     ∧ get_count (mutation_counts st) 1 "B" = 1
     ∧ get_count (mutation_counts st) 2 "B" = 1)
  ∧ (∃ T, written (run_on "AAAA" scenario_C) = Some ("mutation_frequencies.csv", T)
          ∧ reported T 2 "C" = Some "0.250000"
          ∧ reported T 3 "C" = Some "0.250000"
          ∧ data_cells T 1 = Some zeros
          ∧ data_cells T 4 = Some zeros)
  ∧ (∀ rows s k,
       rows = scenario ∨ rows = scenario_C ->
       String.length s = 3 ->
       run_on "AAAA" (take k rows ++ s :: drop k rows)
       = {| printed := [warning s;
                        "Mutation frequencies written to 'mutation_frequencies.csv'."];
            written := written (run_on "AAAA" rows);
            raised := None |}).
Proof.
  split; [|split].
  - split; [vm_compute; reflexivity|]. vm_compute. done.
  - eexists. split; [vm_compute; reflexivity|].
    repeat split; vm_compute; reflexivity.
  - intros rows s k Hrows Hs.
    assert (Hv : valid "AAAA" s = false) by (unfold valid; rewrite Hs; reflexivity).
    apply run_on_insert_skipped; [done| |];
      destruct Hrows as [-> | ->]; vm_compute; first [reflexivity | lia].
Qed.

Lemma C1_scenario_witness :
  (scenario_C = scenario ∨ scenario_C = scenario_C)
  ∧ String.length "AAA" = 3
  ∧ written (run_on "AAAA" ["AAAA"; "ACAA"; "AAA"; "AACA"; "AAAA"])
    = written (run_on "AAAA" scenario_C).
Proof.
  split; [by right|]. split; [reflexivity|].
  destruct C1_scenario as (_ & _ & Hskip).
  pose proof (Hskip scenario_C "AAA" 2 ltac:(by right) eq_refl) as H.
  change (take 2 scenario_C ++ "AAA" :: drop 2 scenario_C)
    with ["AAAA"; "ACAA"; "AAA"; "AACA"; "AAAA"] in H.
  by rewrite H.
Defined.

(** C2, as the specification states it, fails: a sequence that differs
    from the reference by a symbol outside the 20 columns is counted as a
    valid sequence and written nowhere. *)
Lemma C2_counterexample :
  let st := (process_rows "A" initial (reader_rows (single_column ["B"]))).1 in
  written (run_on "A" ["B"])
    = Some ("mutation_frequencies.csv", [header; "1" :: zeros])
  ∧ (written_sum_units (mutation_counts st) (total_sequences st) 0
       * Z.of_nat (total_sequences st)
     ≠ Z.of_nat (count_differing "A" ["B"] 0) * 1000000)%Z.
Proof. split; [vm_compute; reflexivity|]. vm_compute. discriminate. Qed.

(** The same equation fails on canonical symbols too, by the rounding of
    each cell to 6 decimals: one C among three sequences is written as
    0.333333. *)
Example third_is_rounded :
  let st := (process_rows "A" initial (reader_rows (single_column ["C"; "A"; "A"]))).1 in
  written_sum_units (mutation_counts st) (total_sequences st) 0 = 333333%Z
  ∧ total_sequences st = 3
  ∧ count_differing "A" ["C"; "A"; "A"] 0 = 1.
Proof. vm_compute. done. Qed.

(** C2 (amended).  For every position, the counts of which the 20 cells of
    the position's row are the quotients by the number of valid sequences
    sum to the number of valid sequences whose symbol at that position
    differs from the reference symbol and is one of the 20 canonical
    symbols. *)
Theorem C2_row_counts base rows seqs i :
  carries rows seqs ->
  let st := (process_rows base initial rows).1 in
  total_sequences st = length (valid_sequences base seqs)
  ∧ tail (frequency_row (mutation_counts st) (total_sequences st) i)
    = map (fun aa => Py.format_f 6
                       (Py.truediv (Z.of_nat (get_count (mutation_counts st) i aa))
                                   (Z.of_nat (total_sequences st))))
          symbols
  ∧ sum_list (map (get_count (mutation_counts st) i) symbols)
    = count_differing_canonical base seqs i.
Proof.
  intros Hrows st.
  destruct (process_rows_carries base rows seqs Hrows initial) as (_ & Ht & _ & Hc).
  fold st in Ht, Hc. split; [done|]. split; [done|].
  rewrite <- sum_count_mismatches. f_equal. apply map_ext. intros aa.
  rewrite Hc, get_count_empty. done.
Qed.

Lemma C2_row_counts_witness :
  carries (reader_rows (single_column ["MKV"; "MRV"; "MBV"; "MK"])) ["MKV"; "MRV"; "MBV"; "MK"]
  ∧ sum_list (map (get_count
                     (mutation_counts
                        (process_rows "MKV" initial
                           (reader_rows (single_column ["MKV"; "MRV"; "MBV"; "MK"]))).1) 1)
                  symbols) = 1.
Proof.
  split; [apply carries_single_column|].
  destruct (C2_row_counts "MKV" _ _ 1 (carries_single_column ["MKV"; "MRV"; "MBV"; "MK"]))
    as (_ & _ & ->).
  reflexivity.
Defined.



Lemma lookup_map {A B} (f : A -> B) (l : list A) i :
  map f l !! i = f <$> l !! i.
Proof. revert i. induction l as [|x l IH]; intros [|i]; simpl; auto. Qed.

(** The text of a quotient [a / b] with [0 <= a <= b]: a fixed-point
    numeral of 6 decimals between 0.000000 and 1.000000. *)
Lemma frequency_text (a b : Z) :
  (0 <= a <= b)%Z -> (0 < b)%Z ->
  Py.format_f 6 (Py.truediv a b) = Py.fixed 6 (Py.units 6 (Py.truediv a b))
  ∧ (0 <= Py.units 6 (Py.truediv a b) <= 1000000)%Z.
Proof.
  intros Hab Hb. destruct (truediv_at_most_one a b Hab Hb) as [Hle Hs].
  destruct (Py.truediv a b) as [s|s| |s m e]; simpl in *; try done.
  - injection Hs as ->. split; [done|lia].
  - injection Hs as ->. destruct Hle as [He Hm].
    split; [done|]. apply (scaled_at_most_one 6 m e He Hm).
Qed.

Lemma low_digits_length k n : String.length (Py.low_digits k n) = k.
Proof. induction k as [|k IH]; simpl; [done|]. by rewrite IH. Qed.

(** C4.  A run that writes its table writes the header Position, A, C, D,
    ..., Y and then one row per position of the reference, the row of
    index [i] opening with [i + 1]; each row has 20 cells, in the order of
    the header whatever symbols the sequences hold; each cell is the count
    of its symbol at its position over the number of valid sequences,
    rendered with 6 decimals; a symbol with count zero is written as
    0.000000. *)
Theorem C4_table_shape fs disk input_csv_file base output_csv_file path T :
  written (calculate_mutation_frequencies fs disk input_csv_file base output_csv_file)
    = Some (path, T) ->
  ∃ lines seqs rows,
    fs input_csv_file = CsvRows lines
    ∧ carries (reader_rows lines) seqs
    ∧ T = ["Position"; "A"; "C"; "D"; "E"; "F"; "G"; "H"; "I"; "K"; "L";
           "M"; "N"; "P"; "Q"; "R"; "S"; "T"; "V"; "W"; "Y"] :: rows
    ∧ length rows = String.length base
    ∧ ∀ i, i < String.length base ->
        ∃ cells,
          rows !! i = Some (Py.str_int (Z.of_nat (i + 1)) :: cells)
          ∧ length cells = 20
          ∧ ∀ k aa, symbols !! k = Some aa ->
              let count := count_mismatches base seqs i aa in
              let total := length (valid_sequences base seqs) in
              let x := Py.truediv (Z.of_nat count) (Z.of_nat total) in
              cells !! k = Some (Py.format_f 6 x)
              ∧ Py.format_f 6 x
                = Py.str_int (Py.units 6 x / 1000000) +:+ "." +:+ Py.low_digits 6 (Py.units 6 x)
              ∧ (0 <= Py.units 6 x <= 1000000)%Z
              ∧ (count = 0 -> cells !! k = Some "0.000000").
Proof.
  intros H.
  apply run_success_inv
    in H as (lines & fns & seqs & Hfs & _ & _ & Hrows & Hpos & _ & _ & ->).
  exists lines, seqs, (map (expected_row base seqs) (seq 0 (String.length base))).
  split; [done|]. split; [done|]. split; [reflexivity|].
  split; [by rewrite length_map, length_seq|].
  intros i Hi. exists (tail (expected_row base seqs i)). split.
  { rewrite lookup_map, lookup_seq_lt by done. reflexivity. }
  split; [reflexivity|].
  intros k aa Hk count total x.
  assert (Hcell : tail (expected_row base seqs i) !! k = Some (Py.format_f 6 x)).
  { unfold expected_row. cbn [tail]. rewrite lookup_map, Hk. reflexivity. }
  pose proof (count_mismatches_le base seqs i aa) as Hle. fold count total in Hle.
  destruct (frequency_text (Z.of_nat count) (Z.of_nat total)) as [Htext Hbound];
    [lia|unfold total; lia|].
  fold x in Htext, Hbound.
  repeat split; try done; try lia.
  intros Hzero. rewrite Hcell. unfold x. rewrite Hzero.
  rewrite truediv_zero by (unfold total; lia). reflexivity.
Qed.

Lemma C4_table_shape_witness :
  written (run_on "MK" ["MK"; "MR"; "AK"; "M"])
    = Some ("mutation_frequencies.csv", expected_table "MK" ["MK"; "MR"; "AK"; "M"])
  ∧ ∃ rows, tail (expected_table "MK" ["MK"; "MR"; "AK"; "M"]) = rows ∧ length rows = 2.
Proof.
  destruct (C4_table_shape (one_file (single_column ["MK"; "MR"; "AK"; "M"])) flat_disk
              "sequences.csv" "MK" "mutation_frequencies.csv"
              "mutation_frequencies.csv"
              (expected_table "MK" ["MK"; "MR"; "AK"; "M"]))
    as (lines & seqs & rows & _ & _ & HT & Hlen & _).
  { vm_compute. reflexivity. }
  split; [vm_compute; reflexivity|].
  exists rows. split; [by rewrite HT | exact Hlen].
Defined.

(** C5.  A header without a column "sequence": one error line is printed,
    nothing is raised, nothing is written, and no record is looked at (the
    outcome is the same whatever the records are). *)
Theorem C5_missing_column fs disk input_csv_file base output_csv_file fns data :
  fs input_csv_file = CsvRows (fns :: data) ->
  ¬ In "sequence" fns ->
  calculate_mutation_frequencies fs disk input_csv_file base output_csv_file
  = {| printed := ["Error: 'sequences' column not found in '" +:+ input_csv_file +:+ "'."];
       written := None;
       raised := None |}.
Proof.
  intros Hfs Hnot.
  destruct (existsb (String.eqb "sequence") fns) eqn:Hex.
  - apply existsb_exists in Hex as (x & Hx & Heq).
    apply String.eqb_eq in Heq. subst x. done.
  - unfold calculate_mutation_frequencies. rewrite Hfs.
    cbn [fieldnames head]. rewrite Hex. reflexivity.
Qed.

Lemma C5_missing_column_witness :
  ¬ In "sequence" ["id"; "sequences"]
  ∧ calculate_mutation_frequencies
      (one_file [["id"; "sequences"]; ["1"; "MKV"]; ["2"]]) flat_disk
      "sequences.csv" "MKV" "out.csv"
    = {| printed := ["Error: 'sequences' column not found in 'sequences.csv'."];
         written := None; raised := None |}.
Proof.
  assert (Hnot : ¬ In "sequence" ["id"; "sequences"]).
  { intros [H|[H|[]]]; discriminate. }
  split; [exact Hnot|].
  exact (C5_missing_column (one_file [["id"; "sequences"]; ["1"; "MKV"]; ["2"]]) flat_disk
           "sequences.csv" "MKV" "out.csv" ["id"; "sequences"] [["1"; "MKV"]; ["2"]]
           eq_refl Hnot).
Defined.

(** A record too short to have a field under "sequence" carries [None]
    there; [len] fails on it, the failure is caught and the run ends without
    a table. *)
Example short_row_is_reported :
  calculate_mutation_frequencies
    (one_file [["id"; "sequence"]; ["1"; "MKV"]; ["2"]; ["3"; "MRV"]]) flat_disk
    "sequences.csv" "MKV" "out.csv"
  = {| printed := ["An unexpected error occurred: object of type 'NoneType' has no len()"];
       written := None; raised := None |}.
Proof. vm_compute. reflexivity. Qed.

(** A file without any row has no header at all: the membership test
    itself fails, and the failure is caught and printed. *)
Example empty_file_is_reported disk base :
  calculate_mutation_frequencies (one_file []) disk "sequences.csv" base "out.csv"
  = {| printed := ["An unexpected error occurred: argument of type 'NoneType' is not iterable"];
       written := None; raised := None |}.
Proof. reflexivity. Qed.

(** A valid input whose output path does not open: the failure of the
    second [open] is caught by the clause written for the first, and the line
    printed names the input file. *)
Example unopened_output_is_reported :
  calculate_mutation_frequencies (one_file (single_column ["MK"; "MR"])) flat_disk
    "sequences.csv" "MK" "nodir/out.csv"
  = {| printed := ["Error: Input file 'sequences.csv' not found."];
       written := None; raised := None |}.
Proof. vm_compute. reflexivity. Qed.



Lemma canonical_symbols aa : In aa symbols -> canonical aa = true.
Proof.
  intros H. apply existsb_exists. exists aa. split; [done|]. apply Ascii.eqb_refl.
Qed.

Lemma column_index_absent c (l : list ascii) :
  existsb (Ascii.eqb c) l = false ->
  column_index (String c "") (map (fun aa => String aa "") l) = None.
Proof.
  induction l as [|x l IH]; simpl; [done|].
  intros H. apply orb_false_iff in H as [Hx Hl].
  rewrite Ascii.eqb_sym, Hx. by rewrite IH.
Qed.

(** C9.  A record of the reference's length whose symbol [c] at index [i]
    differs from the reference and is none of the 20 canonical symbols:
    the record is counted as a valid sequence, the count map has one more
    at [(i, c)], no count of a canonical symbol at [i] changes, so row [i]
    of the table is computed from the same counts as before, and the
    header has no column for [c]. *)
Theorem C9_noncanonical_mismatch base st row sequence i c b :
  row !! "sequence" = Some (Some sequence) ->
  String.length sequence = String.length base ->
  String.get i sequence = Some c ->
  String.get i base = Some b ->
  c ≠ b ->
  canonical c = false ->
  ∃ st',
    process_row base st row = inr st'
    ∧ total_sequences st' = total_sequences st + 1
    ∧ get_count (mutation_counts st') i c = get_count (mutation_counts st) i c + 1
    ∧ (∀ aa, canonical aa = true ->
         get_count (mutation_counts st') i aa = get_count (mutation_counts st) i aa)
    ∧ (∀ total, frequency_row (mutation_counts st') total i
                = frequency_row (mutation_counts st) total i)
    ∧ column_index (String c "") (tail header) = None.
Proof.
  intros Hrow Hlen Hc Hb Hcb Hcan.
  unfold process_row. rewrite Hrow, Hlen, Nat.eqb_refl. cbn [negb].
  eexists. split; [reflexivity|]. cbn [total_sequences mutation_counts].
  assert (Hneq : Ascii.eqb c b = false) by by apply Ascii.eqb_neq.
  assert (Hsame : ∀ aa, canonical aa = true ->
            get_count (compare_sequence sequence base (mutation_counts st)) i aa
            = get_count (mutation_counts st) i aa).
  { intros aa Haa. rewrite get_count_compare_sequence.
    unfold mismatch. rewrite Hc, Hb, Hneq. cbn [negb andb].
    destruct (Ascii.eqb_spec c aa) as [->|_]; [congruence|lia]. }
  split; [lia|]. split.
  { rewrite get_count_compare_sequence. unfold mismatch.
    by rewrite Hc, Hb, Hneq, Ascii.eqb_refl. }
  split; [done|]. split.
  - intros total. unfold frequency_row, frequency. f_equal.
    apply map_ext_in. intros aa Haa. by rewrite Hsame by by apply canonical_symbols.
  - by apply column_index_absent.
Qed.

Lemma C9_noncanonical_mismatch_witness :
  ∃ st',
    process_row "MKV" initial (dict_row ["sequence"] ["MXV"]) = inr st'
    ∧ total_sequences st' = 1
    ∧ get_count (mutation_counts st') 1 "X" = 1
    ∧ frequency_row (mutation_counts st') 1 1 = "2" :: zeros.
Proof.
  destruct (C9_noncanonical_mismatch "MKV" initial (dict_row ["sequence"] ["MXV"]) "MXV"
              1 "X"%char "K"%char ltac:(vm_compute; reflexivity) eq_refl eq_refl eq_refl
              ltac:(discriminate) eq_refl)
    as (st' & Hst & Ht & Hc & _ & Hrow & _).
  exists st'. split; [exact Hst|]. split; [exact Ht|]. split; [exact Hc|].
  rewrite Hrow. vm_compute. reflexivity.
Defined.

(** C10, as stated, fails for the sum: every cell is rounded to 6
    decimals, and six cells of 1/6 are written as 0.166667 each. *)
Lemma C10_counterexample :
  let seqs := ["A"; "C"; "D"; "E"; "F"; "G"] in
  let st := (process_rows "M" initial (reader_rows (single_column seqs))).1 in
  written (run_on "M" seqs)
    = Some ("mutation_frequencies.csv",
            [header; "1" :: replicate 6 "0.166667" ++ replicate 14 "0.000000"])
  ∧ ¬ (written_sum_units (mutation_counts st) (total_sequences st) 0 <= 1000000)%Z.
Proof. split; [vm_compute; reflexivity|]. vm_compute. intros H. by apply H. Qed.

Lemma units_sum_error (f : ascii -> nat) (total : nat) (l : list ascii) :
  (∀ aa, f aa <= total) -> 0 < total ->
  (2 ^ 53 * (fold_right Z.add 0
               (map (fun aa => Py.units 6 (Py.truediv (Z.of_nat (f aa)) (Z.of_nat total))) l)
             * Z.of_nat total)
   <= 2 ^ 53 * 1000000 * Z.of_nat (sum_list (map f l))
      + Z.of_nat (length l) * ((2 * 1000000 + 2 ^ 52) * Z.of_nat total))%Z.
Proof.
  intros Hle Hpos. induction l as [|aa l IH].
  - simpl. lia.
  - change (sum_list (map f (aa :: l))) with (f aa + sum_list (map f l)).
    cbn [map fold_right length].
    specialize (Hle aa).
    pose proof (units_error (Z.of_nat (f aa)) (Z.of_nat total) ltac:(lia) ltac:(lia)) as H.
    rewrite Nat2Z.inj_add, Nat2Z.inj_succ.
    set (u := Py.units 6 _) in *. set (S := fold_right Z.add 0%Z _) in *.
    set (T := Z.of_nat total) in *. set (n := Z.of_nat (length l)) in *.
    set (c := Z.of_nat (f aa)) in *. set (C := Z.of_nat (sum_list _)) in *.
    replace (2 ^ 53 * ((u + S) * T))%Z
      with (2 ^ 53 * (u * T) + 2 ^ 53 * (S * T))%Z by ring.
    replace (2 ^ 53 * 1000000 * (c + C) + Z.succ n * ((2 * 1000000 + 2 ^ 52) * T))%Z
      with ((2 ^ 53 * 1000000 * c + (2 * 1000000 + 2 ^ 52) * T)
            + (2 ^ 53 * 1000000 * C + n * ((2 * 1000000 + 2 ^ 52) * T)))%Z by ring.
    apply Z.add_le_mono; [exact H | exact IH].
Qed.

(** C10 (amended).  In a run that counted at least one sequence, every
    cell written is a 6-decimal numeral between 0.000000 and 1.000000, no
    count exceeds the number of valid sequences, and the counts behind the
    20 cells of a row sum to at most that number, each valid sequence
    adding to at most one of them; the 20 numerals of the row, each rounded
    to 6 decimals, sum to at most 1.000010. *)
Theorem C10_bounds base rows seqs i :
  carries rows seqs ->
  let st := (process_rows base initial rows).1 in
  0 < total_sequences st ->
  (∀ k cell, tail (frequency_row (mutation_counts st) (total_sequences st) i) !! k = Some cell ->
     ∃ u, (0 <= u <= 1000000)%Z ∧ cell = Py.fixed 6 u)
  ∧ (∀ aa, get_count (mutation_counts st) i aa <= total_sequences st)
  ∧ sum_list (map (get_count (mutation_counts st) i) symbols) <= total_sequences st
  ∧ (written_sum_units (mutation_counts st) (total_sequences st) i <= 1000010)%Z.
Proof.
  intros Hrows st Hpos.
  destruct (process_rows_carries base rows seqs Hrows initial) as (_ & Ht & _ & Hc).
  fold st in Ht, Hc. simpl in Ht.
  assert (Hcount : ∀ aa, get_count (mutation_counts st) i aa
                         = count_mismatches base seqs i aa).
  { intros aa. rewrite Hc, get_count_empty. done. }
  assert (Hle : ∀ aa, get_count (mutation_counts st) i aa <= total_sequences st).
  { intros aa. rewrite Hcount, Ht. apply count_mismatches_le. }
  assert (Hsum : sum_list (map (get_count (mutation_counts st) i) symbols)
                 <= total_sequences st).
  { rewrite (map_ext _ _ Hcount), sum_count_mismatches, Ht.
    apply count_differing_canonical_le. }
  split; [|split; [done|split; [done|]]].
  - intros k cell Hk. unfold frequency_row in Hk. cbn [tail] in Hk.
    rewrite lookup_map in Hk.
    destruct (symbols !! k) as [aa|]; [|done]. injection Hk as <-.
    destruct (frequency_text (Z.of_nat (get_count (mutation_counts st) i aa))
                             (Z.of_nat (total_sequences st))) as [Htext Hb].
    { specialize (Hle aa). lia. }
    { lia. }
    eexists. split; [exact Hb|exact Htext].
  - pose proof (units_sum_error (get_count (mutation_counts st) i) (total_sequences st)
                  symbols Hle Hpos) as H.
    change (length symbols) with 20 in H.
    unfold written_sum_units, frequency.
    set (S := fold_right Z.add 0%Z _) in *.
    assert (HT : (0 < Z.of_nat (total_sequences st))%Z) by lia.
    assert (H' : (2 ^ 53 * S * Z.of_nat (total_sequences st)
                  <= (2 ^ 53 * 1000000 + 20 * (2 * 1000000 + 2 ^ 52))
                     * Z.of_nat (total_sequences st))%Z) by nia.
    apply Z.mul_le_mono_pos_r in H'; [|done].
    change (2 ^ 53)%Z with 9007199254740992%Z in H'.
    change (2 ^ 52)%Z with 4503599627370496%Z in H'. lia.
Qed.

Lemma C10_bounds_witness :
  let rows := reader_rows (single_column ["A"; "C"; "D"; "E"; "F"; "G"]) in
  let st := (process_rows "M" initial rows).1 in
  0 < total_sequences st
  ∧ sum_list (map (get_count (mutation_counts st) 0) symbols) <= total_sequences st.
Proof.
  intros rows st.
  assert (Hpos : 0 < total_sequences st) by (vm_compute; lia).
  split; [exact Hpos|].
  destruct (C10_bounds "M" rows _ 0 (carries_single_column _) Hpos) as (_ & _ & H & _).
  exact H.
Defined.

End CalcProperties.

(** ** plot_mutation_heatmap_v6 *)

Module Plot.

(** What a [KeyError] is about: a column that [set_index] does not find,
    or the labels that [df.loc[...]] does not find in the index. *)
Inductive key :=
| Column (name : string)
| Labels (not_found : list Z).

Inductive exception :=
| FileNotFoundError
| KeyError (k : key)
| ValueError (msg : string)
| BackendError (msg : string).

Definition result (A : Type) : Type := exception + A.

#[local] Instance result_ret : MRet result := fun A x => inr x.
#[local] Instance result_bind : MBind result :=
  fun A B f m => match m with inl e => inl e | inr x => f x end.

(** *** The table

    The frame after [pd.read_csv(...).set_index('Position')]: the names of
    the remaining columns and, in file order, the rows, each with its
    position and its value under every column name.  The cells are finite
    numbers. *)
Record DataFrame := {
  columns : list string;
  rows : list (Z * (string -> Q))
}.

Definition index (df : DataFrame) : list Z := map fst (rows df).

Inductive table_file :=
| NoSuchFile
| NoPositionColumn
| Indexed (df : DataFrame).

Definition read_indexed (f : table_file) : result DataFrame :=
  match f with
  | NoSuchFile => inl FileNotFoundError
  | NoPositionColumn => inl (KeyError (Column "Position"))
  | Indexed df => inr df
  end.

(** [Index.unique()]: each label once, in the order of first appearance. *)
Definition unique (labels : list Z) : list Z :=
  reverse (remove_dups (reverse labels)).

Definition rows_at (df : DataFrame) (pos : Z) : list (Z * (string -> Q)) :=
  List.filter (fun r => Z.eqb r.1 pos) (rows df).

(** [df.loc[labels]] with a list of labels: the rows of each label, in the
    order of the labels; a [KeyError] when a label is not in the index.  The
    error is carried with the labels that are not found (pandas words its
    message in two ways, both of which list them). *)
Definition loc (df : DataFrame) (labels : list Z) : result DataFrame :=
  match List.filter (fun p => negb (existsb (Z.eqb p) (index df))) labels with
  | [] => inr {| columns := columns df; rows := flat_map (rows_at df) labels |}
  | not_found => inl (KeyError (Labels (unique not_found)))
  end.

(** [df.loc[pos, aa]] as the conditional expression uses it: a number when
    one row has the label; with several rows it is a Series, whose truth
    value the conditional refuses.  (Column names are distinct after
    [read_csv]; a label without a row does not occur after [loc].) *)
Definition loc_scalar (df : DataFrame) (pos : Z) (aa : string) : result Q :=
  match rows_at df pos with
  | [] => inl (KeyError (Labels [pos]))
  | [r] => inr (r.2 aa)
  | _ => inl (ValueError "The truth value of a Series is ambiguous.")
  end.

(** *** The colour scale *)

Definition positive (x : Q) : bool := negb (Qle_bool x 0).

Definition cells (df : DataFrame) : list Q :=
  flat_map (fun r => map r.2 (columns df)) (rows df).

(** [df[df > 0].min().min()]: the least of the cells above zero, NaN
    ([None]) without any. *)
Definition min_positive (l : list Q) : option Q :=
  fold_right (fun x acc =>
                if positive x then
                  Some match acc with
                       | Some m => if Qle_bool x m then x else m
                       | None => x
                       end
                else acc)
             None l.

Definition empty (df : DataFrame) : bool :=
  match rows df, columns df with
  | [], _ | _, [] => true
  | _, _ => false
  end.

Definition vmin_non_zero (df_selected : DataFrame) : option Q :=
  if empty df_selected then Some 0%Q else min_positive (cells df_selected).

(** [colors.Normalize(vmin=..., vmax=..., clip=...)] *)
Record Normalize := { vmin : option Q; vmax : Q; clip : bool }.

Definition norm_non_zero (df_selected : DataFrame) : Normalize :=
  {| vmin := vmin_non_zero df_selected; vmax := 1%Q; clip := true |}.

(** [LinearSegmentedColormap.from_list(name, colors)] *)
Record Colormap := { cmap_name : string; cmap_colors : list string }.

Definition cmap_non_zero : Colormap :=
  {| cmap_name := "mutation_cmap_non_zero";
     cmap_colors := ["#808080"; "cornflowerblue"] |}.

(** A fill: a colour given by name, or the colour [cmap(norm(value))]. *)
Inductive color :=
| Fixed (name : string)
| Mapped (cmap : Colormap) (norm : Normalize) (value : Q).

(** Calling a [Normalize] raises when its bounds are in the wrong order. *)
Definition check_norm (norm : Normalize) : result unit :=
  match vmin norm with
  | Some m => if Qle_bool m (vmax norm) then inr tt
              else inl (ValueError "minvalue must be less than or equal to maxvalue")
  | None => inr tt
  end.

(** *** The drawing

    What is added to the axes for the cell in column [j] (a position) and
    row [i] (an amino acid): the filled square, the label of a frequency
    above zero, the orange frame of a highlighted cell. *)
Inductive artist :=
| CellRect (j i : nat) (facecolor : color)
| CellText (j i : nat) (label : string)
| HighlightRect (j i : nat).

Definition highlighted (highlight_cells : gmap Z (list string)) (pos : Z) (aa : string) : bool :=
  match highlight_cells !! pos with
  | Some l => existsb (String.eqb aa) l
  | None => false
  end.

Definition draw_cell (df_selected : DataFrame) (norm : Normalize)
    (highlight_cells : gmap Z (list string))
    (i : nat) (aa : string) (j : nat) (pos : Z) : result (list artist) :=
  frequency ← loc_scalar df_selected pos aa;
  color ← (if Qeq_bool frequency 0 then mret (Fixed "#808080")
           else _ ← check_norm norm; mret (Mapped cmap_non_zero norm frequency));
  mret ([CellRect j i color]
          ++ (if positive frequency then [CellText j i (Py.format_Q 2 frequency)] else [])
          ++ (if highlighted highlight_cells pos aa then [HighlightRect j i] else [])).

(** [for k, x in enumerate(xs): body], stopped by the first exception. *)
Fixpoint for_enumerate {A} (body : nat -> A -> result (list artist))
    (k : nat) (xs : list A) : result (list artist) :=
  match xs with
  | [] => mret []
  | x :: xs' =>
      drawn ← body k x;
      rest ← for_enumerate body (S k) xs';
      mret (drawn ++ rest)
  end.

Definition draw (df_selected : DataFrame) (positions_to_plot : list Z)
    (norm : Normalize) (highlight_cells : gmap Z (list string)) : result (list artist) :=
  for_enumerate
    (fun i aa =>
       for_enumerate (draw_cell df_selected norm highlight_cells i aa) 0 positions_to_plot)
    0 (columns df_selected).

Record Figure := {
  artists : list artist;
  xticklabels : list string;
  yticklabels : list string;
  colorbar : Normalize
}.

(** *** The function

    The lines printed: "Heatmap saved to '...'", "Error: Input file '...'
    not found.", "Error: Position '{e}' not found in the input CSV file."
    and "An unexpected error occurred: {e}", the last two with the
    exception they interpolate. *)

Inductive message :=
| HeatmapSaved (output_filename : string)
| InputNotFound (input_csv_file : string)
| PositionNotFound (e : exception)
| Unexpected (e : exception).

Record outcome := {
  printed : list message;
  saved : option (string * Figure);
  raised : option exception
}.

Definition except_clauses (input_csv_file : string) (e : exception) : option message :=
  match e with
  | FileNotFoundError => Some (InputNotFound input_csv_file)
  | KeyError _ => Some (PositionNotFound e)
  | _ => Some (Unexpected e)
  end.

Section Backend.

(** matplotlib itself, from [plt.subplots] to [plt.savefig]: given the
    figure the function describes (its cells, tick labels and colour scale;
    titles, sizes and fonts are constants of the code), it renders the
    image or raises. *)
Variable backend : Figure -> option exception.

Definition build (fs : string -> table_file) (input_csv_file : string)
    (positions_to_plot : list Z) (highlight_cells : gmap Z (list string)) : result Figure :=
  df ← read_indexed (fs input_csv_file);
  df_selected ← loc df positions_to_plot;
  let norm := norm_non_zero df_selected in
  drawn ← draw df_selected positions_to_plot norm highlight_cells;
  let fig := {| artists := drawn;
                xticklabels := map Py.str_int (index df_selected);
                yticklabels := columns df_selected;
                colorbar := norm |} in
  match backend fig with
  | Some e => inl e
  | None => mret fig
  end.

Definition plot_mutation_heatmap_v6 (fs : string -> table_file)
    (input_csv_file : string) (positions_to_plot : list Z)
    (highlight_cells : gmap Z (list string)) (output_filename : string) : outcome :=
  match build fs input_csv_file positions_to_plot highlight_cells with
  | inr fig =>
      {| printed := [HeatmapSaved output_filename];
         saved := Some (output_filename, fig);
         raised := None |}
  | inl e =>
      match except_clauses input_csv_file e with
      | Some line => {| printed := [line]; saved := None; raised := None |}
      | None => {| printed := []; saved := None; raised := Some e |}
      end
  end.

End Backend.

End Plot.

(** ** The properties of plot_mutation_heatmap_v6 *)

Section PlotProperties.
Import Plot.

Variable backend : Figure -> option exception.

Lemma positive_lt x : positive x = true <-> (0 < x)%Q.
Proof.
  unfold positive. rewrite negb_true_iff.
  split.
  - intros H. apply Qnot_le_lt. intros Hle. apply Qle_bool_iff in Hle. congruence.
  - intros H. destruct (Qle_bool x 0) eqn:E; [|done].
    apply Qle_bool_iff in E. apply Qlt_not_le in H. done.
Qed.

(** The least positive cell: a positive member, below every positive member. *)
Lemma min_positive_member l m :
  min_positive l = Some m -> In m l ∧ positive m = true.
Proof.
  revert m. induction l as [|x l IH]; intros m; simpl; [done|].
  destruct (positive x) eqn:Hx.
  - destruct (min_positive l) as [m'|].
    + destruct (Qle_bool x m'); intros [= <-]; [by split; [left|]|].
      destruct (IH m' eq_refl). split; [by right|done].
    + intros [= <-]. split; [by left|done].
  - intros H. destruct (IH m H). split; [by right|done].
Qed.

Lemma min_positive_least l x :
  In x l -> positive x = true -> ∃ m, min_positive l = Some m ∧ (m <= x)%Q.
Proof.
  induction l as [|y l IH]; simpl; [done|].
  intros [->|Hin] Hx.
  - rewrite Hx. destruct (min_positive l) as [m'|].
    + destruct (Qle_bool x m') eqn:E; eexists; (split; [reflexivity|]).
      * apply Qle_refl.
      * apply Qlt_le_weak, Qnot_le_lt. intros Hle.
        apply Qle_bool_iff in Hle. congruence.
    + eexists. split; [reflexivity|apply Qle_refl].
  - destruct (IH Hin Hx) as (m & Hm & Hle). rewrite Hm.
    destruct (positive y); [|by exists m].
    destruct (Qle_bool y m) eqn:E; eexists; (split; [reflexivity|]); [|done].
    apply Qle_bool_iff in E. by apply Qle_trans with m.
Qed.

Lemma in_cells df x :
  In x (cells df) <-> ∃ r aa, In r (rows df) ∧ In aa (columns df) ∧ x = r.2 aa.
Proof.
  unfold cells. rewrite in_flat_map. split.
  - intros (r & Hr & Hx). apply in_map_iff in Hx as (aa & <- & Haa). by exists r, aa.
  - intros (r & aa & Hr & Haa & ->). exists r. split; [done|].
    apply in_map_iff. by exists aa.
Qed.

Lemma empty_no_cells df : empty df = true -> cells df = [].
Proof.
  unfold empty, cells. destruct (rows df) as [|r l]; [done|].
  destruct (columns df); [|done]. intros _.
  generalize (r :: l). intros l'. induction l' as [|r' l' IH]; simpl; done.
Qed.

(** [vmin_non_zero] is the least positive cell of the frame it is given. *)
Lemma vmin_non_zero_least sel r aa :
  In r (rows sel) -> In aa (columns sel) -> (0 < r.2 aa)%Q ->
  ∃ m, vmin_non_zero sel = Some m
       ∧ (0 < m <= r.2 aa)%Q
       ∧ ∃ r' aa', In r' (rows sel) ∧ In aa' (columns sel) ∧ m = r'.2 aa'.
Proof.
  intros Hr Haa Hpos. unfold vmin_non_zero.
  assert (Hin : In (r.2 aa) (cells sel)) by (apply in_cells; by exists r, aa).
  destruct (empty sel) eqn:He; [by rewrite (empty_no_cells _ He) in Hin|].
  apply positive_lt in Hpos.
  destruct (min_positive_least _ _ Hin Hpos) as (m & Hm & Hle).
  exists m. split; [done|].
  destruct (min_positive_member _ _ Hm) as [Hmin Hmpos].
  apply positive_lt in Hmpos. split; [done|]. by apply in_cells.
Qed.

Lemma loc_inr df labels sel :
  loc df labels = inr sel ->
  columns sel = columns df
  ∧ rows sel = flat_map (rows_at df) labels
  ∧ ∀ p, In p labels -> In p (index df).
Proof.
  unfold loc.
  destruct (List.filter _ labels) as [|q l] eqn:Hf; [|done].
  intros [= <-]. split; [done|]. split; [done|].
  intros p Hp.
  destruct (existsb (Z.eqb p) (index df)) eqn:Hex.
  - apply existsb_exists in Hex as (x & Hx & Heq). apply Z.eqb_eq in Heq. by subst.
  - assert (In p (List.filter (fun p => negb (existsb (Z.eqb p) (index df))) labels)).
    { apply filter_In. by rewrite Hex. }
    by rewrite Hf in H.
Qed.

Lemma for_enumerate_inr {A} (body : nat -> A -> result (list artist)) xs :
  forall k out, for_enumerate body k xs = inr out ->
  forall n x, xs !! n = Some x ->
  ∃ drawn, body (k + n) x = inr drawn ∧ ∀ a, In a drawn -> In a out.
Proof.
  induction xs as [|y xs IH]; intros k out H n x Hn; [done|].
  simpl in H.
  destruct (body k y) as [e|drawn] eqn:Hb; [done|]. simpl in H.
  destruct (for_enumerate body (S k) xs) as [e|rest] eqn:Hr; [done|]. simpl in H.
  injection H as <-.
  destruct n as [|n]; simpl in Hn.
  - injection Hn as <-. exists drawn. rewrite Nat.add_0_r. split; [done|].
    intros a Ha. apply in_or_app. by left.
  - destruct (IH _ _ Hr n x Hn) as (d & Hd & Hsub).
    exists d. replace (k + S n) with (S k + n) by lia. split; [done|].
    intros a Ha. apply in_or_app. right. by apply Hsub.
Qed.

Lemma draw_cell_inr sel norm hl i aa j pos drawn :
  draw_cell sel norm hl i aa j pos = inr drawn ->
  ∃ r, rows_at sel pos = [r]
       ∧ In (CellRect j i (if Qeq_bool (r.2 aa) 0 then Fixed "#808080"
                           else Mapped cmap_non_zero norm (r.2 aa))) drawn.
Proof.
  unfold draw_cell, loc_scalar.
  destruct (rows_at sel pos) as [|r [|r' l]]; [done| |done]. simpl.
  intros H. exists r. split; [done|].
  destruct (Qeq_bool (r.2 aa) 0); simpl in H.
  - injection H as <-. by left.
  - destruct (check_norm norm) as [e|[]]; [done|]. simpl in H.
    injection H as <-. by left.
Qed.

Lemma build_inr fs input_csv_file positions hl fig :
  build backend fs input_csv_file positions hl = inr fig ->
  ∃ df sel,
    fs input_csv_file = Indexed df
    ∧ loc df positions = inr sel
    ∧ draw sel positions (norm_non_zero sel) hl = inr (artists fig)
    ∧ colorbar fig = norm_non_zero sel.
Proof.
  unfold build. destruct (fs input_csv_file) as [| |df]; [done|done|]. simpl.
  destruct (loc df positions) as [e|sel] eqn:Hloc; [done|]. simpl.
  destruct (draw sel positions (norm_non_zero sel) hl) as [e|drawn] eqn:Hd; [done|]. simpl.
  destruct (backend _); [done|]. intros [= <-]. by exists df, sel.
Qed.

Lemma rows_at_flat_map df labels pos r :
  In r (rows_at {| columns := columns df; rows := flat_map (rows_at df) labels |} pos) ->
  In r (rows df) ∧ r.1 = pos ∧ In pos labels.
Proof.
  unfold rows_at at 1. simpl. rewrite filter_In, in_flat_map.
  intros ((p & Hp & Hr) & Heq). apply Z.eqb_eq in Heq.
  unfold rows_at in Hr. apply filter_In in Hr as [Hr Hrp]. apply Z.eqb_eq in Hrp.
  split; [done|]. split; [done|]. congruence.
Qed.

Lemma in_unique q l : In q (unique l) <-> In q l.
Proof.
  unfold unique.
  rewrite <- !list_elem_of_In, elem_of_reverse, elem_of_remove_dups, elem_of_reverse.
  done.
Qed.

(** C6.  In a heatmap that is saved, the scale runs from the least cell
    above zero among the selected rows (not the rows of the whole table)
    to 1, with clipping; the square of a cell of frequency zero is filled
    with the fixed gray "#808080", and the square of any other cell with
    the colour the gray-to-blue map gives its frequency under that
    scale. *)
Theorem C6_colour_scale fs input_csv_file positions hl output_filename path fig :
  saved (plot_mutation_heatmap_v6 backend fs input_csv_file positions hl output_filename)
    = Some (path, fig) ->
  ∃ df sel,
    fs input_csv_file = Indexed df
    ∧ columns sel = columns df
    ∧ rows sel = flat_map (rows_at df) positions
    ∧ colorbar fig = {| vmin := vmin_non_zero sel; vmax := 1%Q; clip := true |}
    ∧ (∀ r aa, In r (rows sel) -> In aa (columns sel) -> (0 < r.2 aa)%Q ->
         ∃ m, vmin_non_zero sel = Some m
              ∧ (0 < m <= r.2 aa)%Q
              ∧ ∃ r' aa', In r' (rows sel) ∧ In aa' (columns sel) ∧ m = r'.2 aa')
    ∧ (∀ i aa j pos, columns sel !! i = Some aa -> positions !! j = Some pos ->
         ∃ r, rows_at sel pos = [r] ∧ In r (rows df) ∧ r.1 = pos
              ∧ In (CellRect j i
                      (if Qeq_bool (r.2 aa) 0 then Fixed "#808080"
                       else Mapped {| cmap_name := "mutation_cmap_non_zero";
                                      cmap_colors := ["#808080"; "cornflowerblue"] |}
                                   (colorbar fig) (r.2 aa)))
                   (artists fig)).
Proof.
  unfold plot_mutation_heatmap_v6.
  destruct (build backend fs input_csv_file positions hl) as [e|fig'] eqn:Hb.
  { by destruct e. }
  simpl. intros [= <- <-].
  apply build_inr in Hb as (df & sel & Hfs & Hloc & Hdraw & Hbar).
  destruct (loc_inr _ _ _ Hloc) as (Hcols & Hrows & _).
  exists df, sel. repeat split; try done.
  - intros r aa. apply vmin_non_zero_least.
  - intros i aa j pos Hi Hj.
    destruct (for_enumerate_inr _ _ _ _ Hdraw i aa Hi) as (d1 & Hd1 & Hsub1).
    destruct (for_enumerate_inr _ _ _ _ Hd1 j pos Hj) as (d2 & Hd2 & Hsub2).
    simpl in Hd2.
    apply draw_cell_inr in Hd2 as (r & Hr & Hin).
    assert (Hr' : In r (rows_at sel pos)) by (rewrite Hr; by left).
    destruct sel as [c rws]. simpl in Hcols, Hrows. subst c rws.
    apply rows_at_flat_map in Hr' as (Hrdf & Hpos & _).
    exists r. repeat split; try done.
    rewrite Hbar. apply Hsub1, Hsub2. exact Hin.
Qed.

(** C7.  A requested position that the table does not hold: the function
    prints the error for a missing position, which carries exactly the
    requested positions that are missing; it saves no image and raises
    nothing. *)
Theorem C7_missing_position fs input_csv_file positions hl output_filename df p :
  fs input_csv_file = Indexed df ->
  In p positions ->
  ¬ In p (index df) ->
  ∃ not_found,
    plot_mutation_heatmap_v6 backend fs input_csv_file positions hl output_filename
    = {| printed := [PositionNotFound (KeyError (Labels not_found))];
         saved := None;
         raised := None |}
    ∧ In p not_found
    ∧ ∀ q, In q not_found <-> In q positions ∧ ¬ In q (index df).
Proof.
  intros Hfs Hp Hnot.
  assert (Hfilter : ∀ q, In q (List.filter (fun p => negb (existsb (Z.eqb p) (index df)))
                                           positions)
                         <-> In q positions ∧ ¬ In q (index df)).
  { intros q. rewrite filter_In, negb_true_iff. split; intros [Hq Hex]; (split; [done|]).
    - intros Hin. assert (existsb (Z.eqb q) (index df) = true); [|congruence].
      apply existsb_exists. exists q. split; [done|apply Z.eqb_refl].
    - destruct (existsb (Z.eqb q) (index df)) eqn:E; [|done].
      apply existsb_exists in E as (x & Hx & Heq). apply Z.eqb_eq in Heq. by subst. }
  unfold plot_mutation_heatmap_v6, build. rewrite Hfs. simpl. unfold loc.
  destruct (List.filter _ positions) as [|q0 l] eqn:Hf.
  { exfalso. by apply (Hfilter p). }
  simpl. eexists. split; [reflexivity|].
  split.
  - apply in_unique, Hfilter. done.
  - intros q. rewrite in_unique. apply Hfilter.
Qed.

End PlotProperties.

(** A table of three positions, of which the heatmap shows two. *)
Definition small_table : Plot.DataFrame :=
  {| Plot.columns := ["A"; "C"];
     Plot.rows :=
       [ (1%Z, fun aa => if String.eqb aa "A" then (1 # 10)%Q else 0%Q);
         (2%Z, fun aa => if String.eqb aa "A" then (1 # 2)%Q else (1 # 4)%Q);
         (3%Z, fun aa => 0%Q) ] |}.

Definition small_fs (path : string) : Plot.table_file :=
  if String.eqb path "mutation_frequencies.csv" then Plot.Indexed small_table
  else Plot.NoSuchFile.

Definition small_highlight : gmap Z (list string) := {[ 2%Z := ["C"] ]}.

Definition small_plot (positions : list Z) : Plot.outcome :=
  Plot.plot_mutation_heatmap_v6 (fun _ => None) small_fs "mutation_frequencies.csv"
    positions small_highlight "mutation_frequency_heatmap.png".

(** The scale of the plot of positions 2 and 3 starts at 1/4, the least
    positive cell of rows 2 and 3, and not at the 1/10 of row 1. *)
Example scale_of_selection :
  Plot.colorbar <$> (snd <$> Plot.saved (small_plot [2; 3]%Z))
  = Some {| Plot.vmin := Some (1 # 4)%Q; Plot.vmax := 1%Q; Plot.clip := true |}
  ∧ Plot.min_positive (Plot.cells small_table) = Some (1 # 10)%Q.
Proof. split; vm_compute; reflexivity. Qed.

Lemma C6_colour_scale_witness :
  ∃ fig sel,
    Plot.saved (small_plot [2; 3]%Z) = Some ("mutation_frequency_heatmap.png", fig)
    ∧ Plot.rows sel = flat_map (Plot.rows_at small_table) [2; 3]%Z
    ∧ Plot.colorbar fig
      = {| Plot.vmin := Plot.vmin_non_zero sel; Plot.vmax := 1%Q; Plot.clip := true |}.
Proof.
  assert (Hsaved : ∃ fig, Plot.saved (small_plot [2; 3]%Z)
                          = Some ("mutation_frequency_heatmap.png", fig)).
  { eexists. vm_compute. reflexivity. }
  destruct Hsaved as [fig Hfig].
  destruct (C6_colour_scale (fun _ => None) small_fs "mutation_frequencies.csv" [2; 3]%Z
              small_highlight "mutation_frequency_heatmap.png" _ fig Hfig)
    as (df & sel & Hfs & _ & Hrows & Hbar & _).
  injection Hfs as <-.
  exists fig, sel. split; [exact Hfig|]. split; [exact Hrows|exact Hbar].
Defined.

Lemma C7_missing_position_witness :
  ∃ not_found,
    Plot.printed (small_plot [2; 7; 3; 5; 7]%Z)
    = [Plot.PositionNotFound (Plot.KeyError (Plot.Labels not_found))]
    ∧ In 7%Z not_found
    ∧ Plot.saved (small_plot [2; 7; 3; 5; 7]%Z) = None.
Proof.
  assert (Hnot : ¬ In 7%Z (Plot.index small_table)).
  { vm_compute. intros [H|[H|[H|[]]]]; discriminate. }
  destruct (C7_missing_position (fun _ => None) small_fs "mutation_frequencies.csv"
              [2; 7; 3; 5; 7]%Z small_highlight "mutation_frequency_heatmap.png"
              small_table 7%Z eq_refl ltac:(right; left; reflexivity) Hnot)
    as (not_found & Hrun & Hin & _).
  exists not_found. unfold small_plot. rewrite Hrun. simpl. auto.
Defined.

(** ** More on the reader and the counting loop *)

Section Reader.
Import Calc CalcSpec.

Lemma lookup_foldr_none_notin (key : string) (l : list string)
    (d : gmap string (option string)) :
  key ∉ l -> foldr (fun key d => <[key := None]> d) d l !! key = d !! key.
Proof.
  induction l as [|x l IH]; simpl; [done|].
  intros Hnot. apply not_elem_of_cons in Hnot as [Hne Hl].
  rewrite lookup_insert_ne by done. by apply IH.
Qed.

Lemma lookup_foldr_none_in (key : string) (l : list string)
    (d : gmap string (option string)) :
  key ∈ l -> foldr (fun key d => <[key := None]> d) d l !! key = Some None.
Proof.
  induction l as [|x l IH]; simpl; [by intros ?%elem_of_nil|].
  intros Hin. destruct (decide (x = key)) as [->|Hne].
  - by rewrite lookup_insert_eq.
  - rewrite lookup_insert_ne by done. apply IH.
    apply elem_of_cons in Hin as [->|]; done.
Qed.

(** With distinct column names, the dictionary of a row holds under the
    name of column [k] the row's field [k], and [None] when the row has no
    field [k]. *)
Lemma dict_row_lookup (fns row : list string) k key :
  NoDup fns -> fns !! k = Some key ->
  dict_row fns row !! key = Some (row !! k).
Proof.
  intros Hnd Hk. unfold dict_row.
  destruct (decide (k < length row)) as [Hlt|Hge].
  - rewrite lookup_foldr_none_notin.
    2:{ intros Hin. apply list_elem_of_lookup in Hin as [j Hj].
        rewrite lookup_drop in Hj.
        pose proof (NoDup_lookup _ _ _ _ Hnd Hk Hj). lia. }
    destruct (lookup_lt_is_Some_2 row k Hlt) as [r Hr]. rewrite Hr.
    apply elem_of_list_to_map_1'.
    + intros y Hy. rewrite elem_of_reverse in Hy.
      apply list_elem_of_lookup in Hy as [j Hj].
      apply lookup_zip_with_Some in Hj as (x & v & Heq & Hx & Hv).
      injection Heq as -> ->.
      pose proof (NoDup_lookup _ _ _ _ Hnd Hk Hx) as <-.
      rewrite list_lookup_fmap, Hr in Hv. by injection Hv as <-.
    + rewrite elem_of_reverse. apply list_elem_of_lookup. exists k.
      apply lookup_zip_with_Some. exists key, (Some r).
      by rewrite list_lookup_fmap, Hr.
  - rewrite lookup_ge_None_2 by lia.
    apply lookup_foldr_none_in, list_elem_of_lookup.
    exists (k - length row). rewrite lookup_drop, <- Hk. f_equal. lia.
Qed.

Lemma process_rows_app base rows1 rows2 : forall st,
  process_rows base st (rows1 ++ rows2)
  = match process_rows base st rows1 with
    | (st', None) => process_rows base st' rows2
    | (st', Some e) => (st', Some e)
    end.
Proof.
  induction rows1 as [|row rows1 IH]; intros st; simpl; [done|].
  destruct (process_row base st row); [done|]. apply IH.
Qed.

(** The fields of column [k] in the rows the reader yields. *)
Definition column (k : nat) (data : list (list string)) : list string :=
  omap (fun row : list string => row !! k) (filter (fun row => row ≠ []) data).

Lemma carries_column fns k data :
  NoDup fns -> fns !! k = Some "sequence" ->
  Forall (fun row : list string => row ≠ [] -> k < length row) data ->
  carries (reader_rows (fns :: data)) (column k data).
Proof.
  intros Hnd Hk Hall. unfold reader_rows, column, carries.
  induction Hall as [|row data Hrow _ IH]; [constructor|].
  destruct (decide (row = [])) as [->|Hne].
  - by rewrite filter_cons_False by (intros H; by apply H).
  - rewrite filter_cons_True by done. rewrite fmap_cons. csimpl.
    destruct (lookup_lt_is_Some_2 row k (Hrow Hne)) as [s Hs]. rewrite Hs. csimpl.
    constructor; [|done].
    by rewrite (dict_row_lookup fns row k "sequence" Hnd Hk), Hs.
Qed.

End Reader.

(** ** Further properties of calculate_mutation_frequencies *)

Section CalcMore.
Import Calc CalcSpec.

(** A table is written exactly when the input file exists, its header has
    the column "sequence", every record has a text in that column, at
    least one of the texts has the length of the reference, and the output
    path opens for writing; the run then is the one [outcome_of] describes
    for these texts. *)
Theorem writes_iff fs disk input_csv_file base output_csv_file :
  is_Some (written (calculate_mutation_frequencies fs disk input_csv_file base
                      output_csv_file))
  <-> ∃ lines fns seqs,
        fs input_csv_file = CsvRows lines
        ∧ fieldnames lines = Some fns
        ∧ In "sequence" fns
        ∧ carries (reader_rows lines) seqs
        ∧ 0 < length (valid_sequences base seqs)
        ∧ disk output_csv_file = Writable
        ∧ calculate_mutation_frequencies fs disk input_csv_file base output_csv_file
          = outcome_of input_csv_file base output_csv_file Writable seqs.
Proof.
  split.
  - intros [[path T] H].
    apply run_success_inv
      in H as (lines & fns & seqs & Hfs & Hfn & Hin & Hrows & Hpos & Hd & _).
    exists lines, fns, seqs. do 6 (split; [done|]).
    rewrite <- Hd. by apply (run_carries _ _ _ _ _ lines fns).
  - intros (lines & fns & seqs & Hfs & Hfn & Hin & Hrows & Hpos & Hd & _).
    rewrite (run_carries _ _ _ _ _ _ _ _ Hfs Hfn Hin Hrows), Hd. unfold outcome_of.
    destruct (length (valid_sequences base seqs)); [lia|]. simpl. eauto.
Qed.

(** Only the column "sequence" is read.  With distinct column names and
    "sequence" as column [k], a file whose non-empty rows all have a field
    [k] gives the run of the fields [k] alone: other columns, surplus
    fields and blank lines change nothing. *)
Theorem only_sequence_column fs disk input_csv_file base output_csv_file fns data k :
  fs input_csv_file = CsvRows (fns :: data) ->
  NoDup fns ->
  fns !! k = Some "sequence" ->
  Forall (fun row : list string => row ≠ [] -> k < length row) data ->
  calculate_mutation_frequencies fs disk input_csv_file base output_csv_file
  = outcome_of input_csv_file base output_csv_file (disk output_csv_file) (column k data).
Proof.
  intros Hfs Hnd Hk Hall.
  apply (run_carries _ _ _ _ _ _ fns _ Hfs eq_refl).
  - apply list_elem_of_In, list_elem_of_lookup. by exists k.
  - by apply carries_column.
Qed.

Lemma only_sequence_column_witness :
  calculate_mutation_frequencies
    (one_file [["id"; "sequence"; "score"];
               ["1"; "MKV"; "0.5"]; []; ["2"; "MRV"; "0.1"; "surplus"]; ["3"; "MK"; "0.2"]])
    flat_disk "sequences.csv" "MKV" "out.csv"
  = outcome_of "sequences.csv" "MKV" "out.csv" Writable ["MKV"; "MRV"; "MK"].
Proof.
  rewrite (only_sequence_column
             (one_file [["id"; "sequence"; "score"];
                        ["1"; "MKV"; "0.5"]; []; ["2"; "MRV"; "0.1"; "surplus"];
                        ["3"; "MK"; "0.2"]])
             flat_disk "sequences.csv" "MKV" "out.csv" ["id"; "sequence"; "score"]
             [["1"; "MKV"; "0.5"]; []; ["2"; "MRV"; "0.1"; "surplus"]; ["3"; "MK"; "0.2"]]
             1 eq_refl).
  - vm_compute. reflexivity.
  - apply (bool_decide_eq_true_1 (NoDup ["id"; "sequence"; "score"])). vm_compute. reflexivity.
  - reflexivity.
  - repeat (apply List.Forall_cons; [intros H; first [simpl; lia | by destruct H]|]).
    apply List.Forall_nil.
Defined.

(** A non-empty row too short to have the "sequence" field ends the run: the
    warnings of the rows before it stay printed, the failure of [len] is
    reported, no table is written whatever the other records are, and the
    rows after it are not read. *)
Theorem short_row_aborts fs disk input_csv_file base output_csv_file fns k before row after :
  fs input_csv_file = CsvRows (fns :: before ++ row :: after) ->
  NoDup fns ->
  fns !! k = Some "sequence" ->
  Forall (fun row : list string => row ≠ [] -> k < length row) before ->
  row ≠ [] ->
  length row <= k ->
  calculate_mutation_frequencies fs disk input_csv_file base output_csv_file
  = {| printed := map warning (skipped_sequences base (column k before))
                    ++ ["An unexpected error occurred: object of type 'NoneType' has no len()"];
       written := None;
       raised := None |}.
Proof.
  intros Hfs Hnd Hk Hall Hne Hshort.
  assert (Hin : existsb (String.eqb "sequence") fns = true).
  { apply has_sequence_column, list_elem_of_In, list_elem_of_lookup. by exists k. }
  unfold calculate_mutation_frequencies. rewrite Hfs. cbn [fieldnames head]. rewrite Hin.
  cbn [negb reader_rows].
  rewrite filter_app, filter_cons_True, fmap_app, fmap_cons, process_rows_app by done.
  pose proof (process_rows_carries base _ _ (carries_column fns k before Hnd Hk Hall) initial)
    as H.
  cbn [reader_rows] in H.
  destruct (process_rows base initial (dict_row fns <$> filter (fun row => row ≠ []) before))
    as [st e].
  simpl in H. destruct H as (-> & _ & Ho & _).
  cbn [process_rows]. unfold process_row.
  rewrite (dict_row_lookup fns row k "sequence" Hnd Hk), lookup_ge_None_2 by done.
  unfold handle. simpl. by rewrite Ho.
Qed.

Lemma short_row_aborts_witness :
  calculate_mutation_frequencies
    (one_file [["id"; "sequence"]; ["1"; "MK"]; ["2"; "MKV"]; ["3"]; ["4"; "MRV"]])
    flat_disk "sequences.csv" "MKV" "out.csv"
  = {| printed := [warning "MK";
                   "An unexpected error occurred: object of type 'NoneType' has no len()"];
       written := None; raised := None |}.
Proof.
  rewrite (short_row_aborts
             (one_file [["id"; "sequence"]; ["1"; "MK"]; ["2"; "MKV"]; ["3"]; ["4"; "MRV"]])
             flat_disk "sequences.csv" "MKV" "out.csv" ["id"; "sequence"] 1
             [["1"; "MK"]; ["2"; "MKV"]] ["3"] [["4"; "MRV"]] eq_refl).
  - vm_compute. reflexivity.
  - apply (bool_decide_eq_true_1 (NoDup ["id"; "sequence"])). vm_compute. reflexivity.
  - reflexivity.
  - repeat (apply List.Forall_cons; [intros H; first [simpl; lia | by destruct H]|]).
    apply List.Forall_nil.
  - discriminate.
  - simpl. lia.
Defined.

(** A valid input whose output path is empty or leads into a directory
    that does not exist: the failure of the second [open] is caught by the
    clause written for the first, so after the warnings the line printed
    says that the input file was not found, and nothing is written. *)
Theorem unopened_output_blames_input fs disk input_csv_file base output_csv_file
    lines fns seqs :
  fs input_csv_file = CsvRows lines ->
  fieldnames lines = Some fns ->
  In "sequence" fns ->
  carries (reader_rows lines) seqs ->
  0 < length (valid_sequences base seqs) ->
  disk output_csv_file = NoSuchDirectory ->
  calculate_mutation_frequencies fs disk input_csv_file base output_csv_file
  = {| printed := map warning (skipped_sequences base seqs)
                    ++ ["Error: Input file '" +:+ input_csv_file +:+ "' not found."];
       written := None;
       raised := None |}.
Proof.
  intros Hfs Hfn Hin Hrows Hpos Hd.
  rewrite (run_carries _ _ _ _ _ _ _ _ Hfs Hfn Hin Hrows), Hd. unfold outcome_of.
  destruct (length (valid_sequences base seqs)); [lia|]. reflexivity.
Qed.

Lemma unopened_output_blames_input_witness :
  calculate_mutation_frequencies (one_file (single_column ["MKV"; "MK"; "MRV"])) flat_disk
    "sequences.csv" "MKV" "results/mutation_frequencies.csv"
  = {| printed := [warning "MK"; "Error: Input file 'sequences.csv' not found."];
       written := None;
       raised := None |}.
Proof.
  apply (unopened_output_blames_input (one_file (single_column ["MKV"; "MK"; "MRV"]))
           flat_disk "sequences.csv" "MKV" "results/mutation_frequencies.csv"
           (single_column ["MKV"; "MK"; "MRV"]) ["sequence"] ["MKV"; "MK"; "MRV"]
           eq_refl eq_refl ltac:(by left) (carries_single_column _)).
  - vm_compute. lia.
  - reflexivity.
Defined.

Lemma filter_length_Permutation {A} (f : A -> bool) l1 l2 :
  l1 ≡ₚ l2 -> length (List.filter f l1) = length (List.filter f l2).
Proof.
  induction 1 as [|x l1 l2 _ IH|x y l|l1 l2 l3 _ IH1 _ IH2]; simpl.
  - done.
  - destruct (f x); simpl; lia.
  - destruct (f x), (f y); simpl; lia.
  - lia.
Qed.

Lemma filter_Permutation_bool {A} (f : A -> bool) l1 l2 :
  l1 ≡ₚ l2 -> List.filter f l1 ≡ₚ List.filter f l2.
Proof.
  induction 1 as [|x l1 l2 _ IH|x y l|l1 l2 l3 _ IH1 _ IH2]; simpl.
  - done.
  - destruct (f x); [by constructor|done].
  - destruct (f x), (f y); try done. apply perm_swap.
  - by etransitivity.
Qed.

Lemma final_counts base rows seqs :
  carries rows seqs ->
  let st := (process_rows base initial rows).1 in
  total_sequences st = length (valid_sequences base seqs)
  ∧ stdout st = map warning (skipped_sequences base seqs)
  ∧ ∀ j aa, get_count (mutation_counts st) j aa = count_mismatches base seqs j aa.
Proof.
  intros Hrows st.
  destruct (process_rows_carries base rows seqs Hrows initial) as (_ & Ht & Ho & Hc).
  fold st in Ht, Ho, Hc. split; [done|]. split; [done|].
  intros j aa. by rewrite Hc, get_count_empty.
Qed.

(** The order of the records does not matter to the table: two inputs
    whose sequences are a rearrangement of one another end with the same
    total, the same counts and the same table (only the order of the
    warnings differs). *)
Theorem record_order_irrelevant base rows1 rows2 seqs1 seqs2 :
  carries rows1 seqs1 ->
  carries rows2 seqs2 ->
  seqs1 ≡ₚ seqs2 ->
  let st1 := (process_rows base initial rows1).1 in
  let st2 := (process_rows base initial rows2).1 in
  total_sequences st1 = total_sequences st2
  ∧ (∀ j aa, get_count (mutation_counts st1) j aa = get_count (mutation_counts st2) j aa)
  ∧ table (mutation_counts st1) (total_sequences st1) (String.length base)
    = table (mutation_counts st2) (total_sequences st2) (String.length base)
  ∧ stdout st1 ≡ₚ stdout st2.
Proof.
  intros H1 H2 Hperm st1 st2.
  destruct (final_counts base rows1 seqs1 H1) as (Ht1 & Ho1 & Hc1).
  destruct (final_counts base rows2 seqs2 H2) as (Ht2 & Ho2 & Hc2).
  fold st1 in Ht1, Ho1, Hc1. fold st2 in Ht2, Ho2, Hc2.
  assert (Hv : valid_sequences base seqs1 ≡ₚ valid_sequences base seqs2)
    by by apply filter_Permutation_bool.
  assert (Ht : total_sequences st1 = total_sequences st2).
  { rewrite Ht1, Ht2. by apply Permutation_length. }
  assert (Hc : ∀ j aa, get_count (mutation_counts st1) j aa
                       = get_count (mutation_counts st2) j aa).
  { intros j aa. rewrite Hc1, Hc2. by apply filter_length_Permutation. }
  repeat split; try done.
  - unfold table. f_equal. apply map_ext. intros i.
    unfold frequency_row, frequency. f_equal. apply map_ext. intros aa.
    by rewrite Hc, Ht.
  - rewrite Ho1, Ho2. apply Permutation_map. by apply filter_Permutation_bool.
Qed.

Lemma record_order_irrelevant_witness :
  table (mutation_counts (process_rows "MKV" initial
                            (reader_rows (single_column ["MRV"; "MK"; "MKA"]))).1)
        2 3
  = table (mutation_counts (process_rows "MKV" initial
                              (reader_rows (single_column ["MKA"; "MRV"; "MK"]))).1)
          2 3.
Proof.
  assert (Hperm : ["MRV"; "MK"; "MKA"] ≡ₚ ["MKA"; "MRV"; "MK"]).
  { change (["MRV"; "MK"] ++ ["MKA"] ≡ₚ ["MKA"] ++ ["MRV"; "MK"]).
    apply Permutation_app_comm. }
  destruct (record_order_irrelevant "MKV" _ _ _ _
              (carries_single_column ["MRV"; "MK"; "MKA"])
              (carries_single_column ["MKA"; "MRV"; "MK"]) Hperm)
    as (_ & _ & H & _).
  exact H.
Defined.

(** Two batches read one after the other count as the two counted apart
    and added: totals add, every count adds, the warnings follow one
    another. *)
Theorem batches_add base rows1 rows2 seqs1 seqs2 :
  carries rows1 seqs1 ->
  carries rows2 seqs2 ->
  let st1 := (process_rows base initial rows1).1 in
  let st2 := (process_rows base initial rows2).1 in
  let st := (process_rows base initial (rows1 ++ rows2)).1 in
  total_sequences st = total_sequences st1 + total_sequences st2
  ∧ (∀ j aa, get_count (mutation_counts st) j aa
             = get_count (mutation_counts st1) j aa + get_count (mutation_counts st2) j aa)
  ∧ stdout st = stdout st1 ++ stdout st2.
Proof.
  intros H1 H2 st1 st2 st.
  destruct (final_counts base rows1 seqs1 H1) as (Ht1 & Ho1 & Hc1).
  destruct (final_counts base rows2 seqs2 H2) as (Ht2 & Ho2 & Hc2).
  assert (H12 : carries (rows1 ++ rows2) (seqs1 ++ seqs2)) by by apply Forall2_app.
  destruct (final_counts base _ _ H12) as (Ht & Ho & Hc).
  fold st1 in Ht1, Ho1, Hc1. fold st2 in Ht2, Ho2, Hc2. fold st in Ht, Ho, Hc.
  rewrite Ht, Ho, Ht1, Ht2, Ho1, Ho2.
  rewrite valid_sequences_app, skipped_sequences_app, length_app, map_app.
  repeat split; try done.
  intros j aa. rewrite Hc, Hc1, Hc2. unfold count_mismatches.
  by rewrite valid_sequences_app, List.filter_app, length_app.
Qed.

Lemma batches_add_witness :
  total_sequences (process_rows "MKV" initial
                     (reader_rows (single_column ["MRV"; "MK"])
                      ++ reader_rows (single_column ["MKA"; "MRV"]))).1
  = 1 + 2.
Proof.
  destruct (batches_add "MKV" _ _ _ _
              (carries_single_column ["MRV"; "MK"])
              (carries_single_column ["MKA"; "MRV"])) as (H & _).
  exact H.
Defined.

(** Nothing is counted outside the reference or for the reference's own
    symbol: a count that is not zero sits at an index of the reference, for a
    symbol other than the reference's, carried there by a valid sequence.  In
    the table, the cell of a position under that position's reference symbol
    is 0.000000. *)
Theorem reference_never_counted base rows seqs :
  carries rows seqs ->
  let st := (process_rows base initial rows).1 in
  (∀ j aa, get_count (mutation_counts st) j aa ≠ 0 ->
     j < String.length base
     ∧ String.get j base ≠ Some aa
     ∧ ∃ s, In s seqs ∧ String.length s = String.length base ∧ String.get j s = Some aa)
  ∧ (0 < total_sequences st ->
     ∀ i k aa, symbols !! k = Some aa -> String.get i base = Some aa ->
       tail (frequency_row (mutation_counts st) (total_sequences st) i) !! k
       = Some "0.000000").
Proof.
  intros Hrows st.
  destruct (final_counts base rows seqs Hrows) as (Ht & _ & Hc). fold st in Ht, Hc.
  assert (Hnz : ∀ j aa, get_count (mutation_counts st) j aa ≠ 0 ->
            ∃ s, In s (valid_sequences base seqs) ∧ mismatch base j aa s = true).
  { intros j aa Hne. rewrite Hc in Hne. unfold count_mismatches in Hne.
    destruct (List.filter (mismatch base j aa) (valid_sequences base seqs)) as [|s l] eqn:Hf;
      [done|].
    assert (Hin : In s (List.filter (mismatch base j aa) (valid_sequences base seqs)))
      by (rewrite Hf; by left).
    apply filter_In in Hin. by exists s. }
  assert (Hmis : ∀ j aa s, mismatch base j aa s = true ->
            String.get j s = Some aa ∧ String.get j base ≠ Some aa
            ∧ j < String.length base).
  { intros j aa s Hm. unfold mismatch in Hm.
    destruct (String.get j s) as [c|] eqn:Hs; [|done].
    destruct (String.get j base) as [b|] eqn:Hb; [|done].
    apply andb_true_iff in Hm as [Hcb Hca].
    apply Ascii.eqb_eq in Hca as ->.
    apply negb_true_iff, Ascii.eqb_neq in Hcb.
    split; [done|]. split; [congruence|].
    destruct (decide (j < String.length base)); [done|].
    rewrite get_out_of_range in Hb by lia. done. }
  split.
  - intros j aa Hne. destruct (Hnz j aa Hne) as (s & Hin & Hm).
    destruct (Hmis j aa s Hm) as (Hs & Hb & Hj).
    split; [done|]. split; [done|].
    apply filter_In in Hin as [Hin Hv]. exists s.
    split; [done|]. split; [|done]. by apply Nat.eqb_eq in Hv.
  - intros Hpos i k aa Hk Hb. unfold frequency_row, frequency. cbn [tail].
    rewrite lookup_map, Hk. cbn [fmap option_fmap option_map].
    destruct (decide (get_count (mutation_counts st) i aa = 0)) as [->|Hne].
    + rewrite truediv_zero by lia. reflexivity.
    + destruct (Hnz i aa Hne) as (s & _ & Hm).
      destruct (Hmis i aa s Hm) as (_ & Hb' & _). done.
Qed.

Lemma reference_never_counted_witness :
  let st := (process_rows "MKV" initial (reader_rows (single_column ["MRV"; "AKV"]))).1 in
  0 < total_sequences st
  ∧ tail (frequency_row (mutation_counts st) (total_sequences st) 1) !! 8
    = Some "0.000000".
Proof.
  intros st.
  assert (Hpos : 0 < total_sequences st) by (vm_compute; lia).
  split; [exact Hpos|].
  destruct (reference_never_counted "MKV" _ _ (carries_single_column ["MRV"; "AKV"]))
    as [_ H].
  exact (H Hpos 1 8 "K"%char eq_refl eq_refl).
Defined.

(** Every character there is. *)
Definition all_ascii : list ascii := map ascii_of_nat (seq 0 256).

Lemma all_ascii_NoDup : NoDup all_ascii.
Proof. apply (bool_decide_eq_true_1 (NoDup all_ascii)). vm_compute. reflexivity. Qed.

Lemma all_ascii_complete c : existsb (Ascii.eqb c) all_ascii = true.
Proof.
  apply existsb_exists. exists c. split; [|apply Ascii.eqb_refl].
  unfold all_ascii. apply in_map_iff. exists (nat_of_ascii c).
  split; [apply ascii_nat_embedding|]. apply in_seq.
  pose proof (nat_ascii_bounded c). lia.
Qed.

(** At every position the counts of all symbols, written or not, sum to the
    number of valid sequences that differ from the reference there. *)
Theorem counts_sum_to_differing base rows seqs i :
  carries rows seqs ->
  let st := (process_rows base initial rows).1 in
  sum_list (map (get_count (mutation_counts st) i) all_ascii)
  = count_differing base seqs i.
Proof.
  intros Hrows st.
  destruct (final_counts base rows seqs Hrows) as (_ & _ & Hc). fold st in Hc.
  rewrite (map_ext _ _ (Hc i)). unfold count_mismatches, count_differing.
  induction (valid_sequences base seqs) as [|s l IH]; cbn [List.filter length].
  - apply sum_list_zero.
  - transitivity
      (sum_list (map (fun aa => (if mismatch base i aa s then 1 else 0)
                                + length (List.filter (mismatch base i aa) l)) all_ascii)).
    { f_equal. apply map_ext. intros aa. by destruct (mismatch base i aa s). }
    rewrite sum_list_pointwise, IH.
    assert (Hone : sum_list (map (fun aa => if mismatch base i aa s then 1 else 0) all_ascii)
                   = if differs base i s then 1 else 0).
    { unfold mismatch, differs.
      destruct (String.get i s) as [c|]; [|apply sum_list_zero].
      destruct (String.get i base) as [b|]; [|apply sum_list_zero].
      destruct (Ascii.eqb c b); cbn [negb andb]; [apply sum_list_zero|].
      rewrite (sum_list_indicator c all_ascii all_ascii_NoDup).
      by rewrite all_ascii_complete. }
    rewrite Hone. by destruct (differs base i s).
Qed.

Lemma counts_sum_to_differing_witness :
  sum_list (map (get_count
                   (mutation_counts
                      (process_rows "MKV" initial
                         (reader_rows (single_column ["MBV"; "MRV"; "MkV"; "MK"]))).1) 1)
                all_ascii)
  = 3.
Proof.
  rewrite (counts_sum_to_differing "MKV" _ _ 1
             (carries_single_column ["MBV"; "MRV"; "MkV"; "MK"])).
  reflexivity.
Defined.

End CalcMore.

(** ** How close a written cell is to the exact quotient *)

Section QuotientAccuracy.
Local Open Scope Z_scope.

Lemma shr_1_ceil mrs :
  0 <= shr_m mrs -> shr_m mrs <= 2 * shr_m (shr_1 mrs) + 1.
Proof. destruct mrs as [m r s]. destruct m as [|[p|p|]|p]; simpl; lia. Qed.

Lemma iter_shr_1_ceil p : forall mrs,
  0 <= shr_m mrs ->
  shr_m mrs + 1 <= 2 ^ Z.pos p * (shr_m (SpecFloat.iter_pos shr_1 p mrs) + 1).
Proof.
  induction p as [p IH|p IH|]; intros mrs Hm; simpl SpecFloat.iter_pos.
  - pose proof (shr_1_ceil mrs Hm) as H1.
    destruct (shr_1_floor mrs Hm) as [H1' _].
    pose proof (IH _ H1') as H2.
    destruct (iter_shr_1_floor p _ H1') as [H2' _].
    pose proof (IH _ H2') as H3.
    replace (Z.pos p~1) with (Z.pos p + Z.pos p + 1) by lia.
    rewrite !Z.pow_add_r, Z.pow_1_r by lia.
    assert (0 < 2 ^ Z.pos p) by (apply Z.pow_pos_nonneg; lia). nia.
  - pose proof (IH _ Hm) as H2.
    destruct (iter_shr_1_floor p _ Hm) as [H2' _].
    pose proof (IH _ H2') as H3.
    replace (Z.pos p~0) with (Z.pos p + Z.pos p) by lia.
    rewrite !Z.pow_add_r by lia.
    assert (0 < 2 ^ Z.pos p) by (apply Z.pow_pos_nonneg; lia). nia.
  - pose proof (shr_1_ceil mrs Hm). change (2 ^ 1) with 2. lia.
Qed.

Lemma shr_fexp_ceil m e l :
  0 <= m ->
  let r := shr_fexp Py.prec Py.emax m e l in
  m + 1 <= 2 ^ (r.2 - e) * (shr_m r.1 + 1).
Proof.
  intros Hm. unfold shr_fexp, shr.
  destruct (fexp Py.prec Py.emax (Zdigits2 m + e) - e) as [|k|k] eqn:Hk; simpl.
  - rewrite shr_m_of_loc, Z.sub_diag. simpl. lia.
  - pose proof (iter_shr_1_ceil k (shr_record_of_loc m l)) as H.
    rewrite shr_m_of_loc in H.
    replace (e + Z.pos k - e) with (Z.pos k) by lia. by apply H.
  - rewrite shr_m_of_loc, Z.sub_diag. simpl. lia.
Qed.

Lemma round_nearest_even_ge m l : m <= round_nearest_even m l.
Proof. destruct l as [|[]]; simpl; try lia. destruct (Z.even m); lia. Qed.

(** The mantissa of a float that is zero or finite. *)
Definition mantissa (x : spec_float) : Z :=
  match x with
  | S754_finite _ m _ => Z.pos m
  | _ => 0
  end.

(** The result of the rounding, between the value given and the value
    given plus one unit of the first shift, with its exponent. *)
Lemma binary_round_aux_shape sx mx ex lx :
  ex <= 0 -> below (- ex) (shr_record_of_loc mx lx) ->
  let x := binary_round_aux Py.prec Py.emax sx mx ex lx in
  let e1 := Z.max ex (fexp Py.prec Py.emax (Zdigits2 mx + ex)) in
  ∃ e3,
    e1 <= e3 <= Z.max e1 (-52)
    ∧ 2 ^ (e3 - ex) * mantissa x <= mx + 2 ^ (e1 - ex)
    ∧ mx + 1 <= 2 ^ (e3 - ex) * (mantissa x + 1)
    ∧ (x = S754_zero sx ∨ ∃ m, x = S754_finite sx m e3).
Proof.
  intros He Hb x e1. subst x. unfold binary_round_aux.
  assert (Hmx : 0 <= mx) by (destruct Hb as [H _]; by rewrite shr_m_of_loc in H).
  pose proof (shr_fexp_floor mx ex lx Hmx) as H1.
  pose proof (shr_fexp_ceil mx ex lx Hmx) as H1c.
  pose proof (shr_fexp_below mx ex lx He Hb) as H1b.
  destruct (shr_fexp Py.prec Py.emax mx ex lx) as [mrs' e']. simpl in H1, H1c, H1b.
  destruct H1 as (He' & Hm' & Hle'). destruct H1b as [He'0 Hb'].
  pose proof (round_nearest_even_succ (shr_m mrs') (loc_of_shr_record mrs') Hm') as Hr.
  pose proof (round_nearest_even_ge (shr_m mrs') (loc_of_shr_record mrs')) as Hrge.
  pose proof (round_nearest_even_below _ _ Hb') as Hrb.
  set (m1 := round_nearest_even (shr_m mrs') (loc_of_shr_record mrs')) in *.
  assert (Hb1 : below (- e') (shr_record_of_loc m1 loc_Exact)).
  { unfold below, upper. simpl. lia. }
  pose proof (shr_fexp_floor m1 e' loc_Exact ltac:(lia)) as H2.
  pose proof (shr_fexp_ceil m1 e' loc_Exact ltac:(lia)) as H2c.
  pose proof (shr_fexp_below m1 e' loc_Exact He'0 Hb1) as H2b.
  destruct (shr_fexp Py.prec Py.emax m1 e' loc_Exact) as [mrs'' e'']. simpl in H2, H2c, H2b.
  destruct H2 as (He'' & Hm'' & Hle''). destruct H2b as [He''0 _].
  assert (Hd : Zdigits2 m1 <= - e' + 1) by (apply Zdigits2_upper; lia).
  assert (He3 : e' <= e'' <= Z.max e' (-52)).
  { rewrite He''. unfold fexp, emin, Py.prec, Py.emax. lia. }
  assert (0 < 2 ^ (e' - ex)) by (apply Z.pow_pos_nonneg; lia).
  assert (0 < 2 ^ (e'' - e')) by (apply Z.pow_pos_nonneg; lia).
  assert (Hpow : 2 ^ (e'' - ex) = 2 ^ (e'' - e') * 2 ^ (e' - ex)).
  { rewrite <- Z.pow_add_r by lia. f_equal. lia. }
  exists e''. fold e1 in He'. rewrite <- He'. split; [lia|].
  rewrite Hpow.
  destruct (shr_m mrs'') as [|m|m] eqn:Hm; [| |lia].
  - simpl. split; [nia|]. split; [nia|]. by left.
  - assert (Hle : (e'' <=? Py.emax - Py.prec) = true).
    { apply Z.leb_le. unfold Py.emax, Py.prec. lia. }
    rewrite Hle. simpl. split; [nia|]. split; [nia|]. right. by exists m.
Qed.

(** The float computed for [a / b], [0 <= a <= b]: its exponent is at most
    [-52], and the exact quotient lies between it less [2^-52] and it plus
    one unit of its last place. *)
Lemma truediv_shape a b :
  0 <= a <= b -> 0 < b ->
  let x := Py.truediv a b in
  ∃ e3,
    e3 <= -52
    ∧ 2 ^ 52 * (mantissa x * b) <= (2 ^ 52 * a + b) * 2 ^ (- e3)
    ∧ a * 2 ^ (- e3) < (mantissa x + 1) * b
    ∧ (x = S754_zero false ∨ ∃ m, x = S754_finite false m e3).
Proof.
  intros [Ha Hab] Hb x. subst x. unfold Py.truediv.
  destruct b as [|b|b]; try lia. destruct a as [|a|a]; try lia.
  { exists (-52). simpl. split; [lia|]. split; [lia|]. split; [lia|]. by left. }
  cbn [Py.float_of_int SFdiv xorb].
  pose proof (div_core_below a b Hab) as Hbelow.
  unfold SFdiv_core_binary in *.
  set (e := Z.min (fexp Py.prec Py.emax
                     (Zdigits2 (Z.pos a) + 0 - (Zdigits2 (Z.pos b) + 0))) (0 - 0)) in *.
  assert (He53 : e <= -53).
  { unfold e, fexp, emin, Py.prec, Py.emax. simpl Zdigits2.
    pose proof (digits2_pos_mono a b Hab). lia. }
  set (m' := match 0 - 0 - e with
             | 0 => Z.pos a
             | Z.pos _ => Z.shiftl (Z.pos a) (0 - 0 - e)
             | Z.neg _ => 0
             end) in *.
  assert (Hm' : m' = Z.pos a * 2 ^ (- e)).
  { unfold m'. replace (0 - 0 - e) with (- e) by lia.
    destruct (- e) as [|k|k] eqn:Hk; [simpl; lia| |lia].
    rewrite Z.shiftl_mul_pow2; lia. }
  clearbody m' e.
  pose proof (Z_div_mod m' (Z.pos b) eq_refl) as Hdm.
  destruct (Z.div_eucl m' (Z.pos b)) as [q r]. destruct Hdm as [Hq Hr].
  destruct Hbelow as [_ Hbelow].
  destruct (binary_round_aux_shape false q e (new_location (Z.pos b) r) ltac:(lia) Hbelow)
    as (e3 & He3 & Hup & Hlo & Hx).
  assert (He1 : Z.max e (fexp Py.prec Py.emax (Zdigits2 q + e)) <= -52).
  { destruct Hbelow as [Hq0 Hu]. rewrite upper_of_loc, shr_m_of_loc in *.
    assert (Hd : Zdigits2 q <= - e + 1).
    { apply Zdigits2_upper; [lia|]. destruct (new_location _ _); lia. }
    unfold fexp, emin, Py.prec, Py.emax. lia. }
  set (e1 := Z.max e (fexp Py.prec Py.emax (Zdigits2 q + e))) in *.
  set (x := binary_round_aux Py.prec Py.emax false q e (new_location (Z.pos b) r)) in *.
  exists e3. split; [lia|].
  assert (HA : 0 < 2 ^ (- e)) by (apply Z.pow_pos_nonneg; lia).
  assert (HG : 0 < 2 ^ (e3 - e)) by (apply Z.pow_pos_nonneg; lia).
  assert (HAB : 2 ^ (- e) = 2 ^ (- e3) * 2 ^ (e3 - e)).
  { rewrite <- Z.pow_add_r by lia. f_equal. lia. }
  assert (HE : 2 ^ 52 * 2 ^ (e1 - e) <= 2 ^ (- e)).
  { rewrite <- Z.pow_add_r by lia. apply Z.pow_le_mono_r; lia. }
  assert (H52 : 0 < 2 ^ 52) by done.
  assert (Hmant : 0 <= mantissa x) by (destruct x; simpl; lia).
  split; [|split; [|done]].
  - apply (Z.mul_le_mono_pos_r _ _ (2 ^ (e3 - e)) HG).
    replace ((2 ^ 52 * Z.pos a + Z.pos b) * 2 ^ (- e3) * 2 ^ (e3 - e))
      with ((2 ^ 52 * Z.pos a + Z.pos b) * 2 ^ (- e)) by (rewrite HAB; ring).
    nia.
  - apply (Z.mul_lt_mono_pos_r (2 ^ (e3 - e)) _ _ HG).
    replace (Z.pos a * 2 ^ (- e3) * 2 ^ (e3 - e)) with (Z.pos a * 2 ^ (- e))
      by (rewrite HAB; ring).
    nia.
Qed.

Lemma div_half_even_lower n d :
  0 < d -> 0 <= n -> 2 * n <= 2 * (Py.div_half_even n d * d) + d.
Proof.
  intros Hd Hn. unfold Py.div_half_even.
  pose proof (Z.div_mod n d ltac:(lia)) as Hdm.
  pose proof (Z.mod_pos_bound n d Hd) as Hr.
  destruct (Z.compare_spec (2 * (n mod d)) d) as [Heq|Hlt|Hgt]; [|nia|nia].
  destruct (Z.even (n / d)); nia.
Qed.

(** The number of [10^-6] units written for [a / b] differs from
    [10^6 * a / b] by at most [1/2 + 10^6 * 2^-52]. *)
Lemma units_accuracy a b :
  0 <= a <= b -> 0 < b ->
  Z.abs (2 ^ 53 * (Py.units 6 (Py.truediv a b) * b - 1000000 * a))
  <= (2 ^ 52 + 2 * 1000000) * b.
Proof.
  intros Hab Hb.
  pose proof (units_error a b Hab Hb) as Hup.
  destruct (truediv_shape a b Hab Hb) as (e3 & He3 & _ & Hlo & Hx).
  assert (H52 : 0 < 2 ^ 52) by done.
  assert (HD : 2 ^ 52 <= 2 ^ (- e3)) by (apply Z.pow_le_mono_r; lia).
  assert (Hlow : 2 ^ 53 * 1000000 * a
                 <= 2 ^ 53 * (Py.units 6 (Py.truediv a b) * b) + (2 ^ 52 + 2 * 1000000) * b).
  { change (2 ^ 53) with (2 * 2 ^ 52) in *.
    destruct Hx as [Hx|[m Hx]]; rewrite Hx in *; simpl in Hlo |- *.
    - nia.
    - unfold Py.scaled. change (10 ^ Z.of_nat 6) with 1000000.
      destruct (Z.leb_spec 0 e3); [lia|].
      pose proof (div_half_even_lower (Z.pos m * 1000000) (2 ^ (- e3))
                    ltac:(lia) ltac:(lia)) as Hu.
      set (u := Py.div_half_even (Z.pos m * 1000000) (2 ^ (- e3))) in *.
      set (D := 2 ^ (- e3)) in *.
      apply (Z.mul_le_mono_pos_r _ _ D ltac:(lia)).
      nia. }
  apply Z.abs_le. lia.
Qed.

End QuotientAccuracy.

(** ** What the written cells tell about the counts *)

Section CellText.
Import Calc CalcSpec.

(** The value of a decimal digit character, and of a string of them. *)
Definition digit_value (c : ascii) : Z := (Z.of_nat (nat_of_ascii c) - 48)%Z.

Fixpoint digits_value (s : string) : Z :=
  match s with
  | EmptyString => 0
  | String c s' => digit_value c * 10 ^ Z.of_nat (String.length s') + digits_value s'
  end%Z.

Lemma digit_value_char d : (0 <= d < 10)%Z -> digit_value (Py.digit_char d) = d.
Proof.
  intros Hd. unfold digit_value, Py.digit_char.
  rewrite nat_ascii_embedding by lia. lia.
Qed.

Lemma low_digits_value k n :
  (0 <= n)%Z -> digits_value (Py.low_digits k n) = (n mod 10 ^ Z.of_nat k)%Z.
Proof.
  intros Hn. induction k as [|k IH].
  - simpl. by rewrite Z.mod_1_r.
  - cbn [Py.low_digits digits_value].
    rewrite low_digits_length, IH, digit_value_char
      by (apply Z.mod_pos_bound; lia).
    rewrite Nat2Z.inj_succ, Z.pow_succ_r by lia.
    rewrite (Z.mul_comm 10), Z.rem_mul_r by (try apply Z.pow_nonzero; lia).
    lia.
Qed.

(** Two fixed-point numerals of 6 decimals between 0.000000 and 1.000000
    that read the same are the same number. *)
Lemma fixed_injective u u' :
  (0 <= u <= 1000000)%Z -> (0 <= u' <= 1000000)%Z ->
  Py.fixed 6 u = Py.fixed 6 u' -> u = u'.
Proof.
  intros Hu Hu' H. unfold Py.fixed in H. change (10 ^ Z.of_nat 6)%Z with 1000000%Z in H.
  assert (Hq : ∀ v, (0 <= v <= 1000000)%Z ->
            ((v / 1000000)%Z = 0%Z ∧ Py.str_int (v / 1000000)%Z = "0")
            ∨ ((v / 1000000)%Z = 1%Z ∧ Py.str_int (v / 1000000)%Z = "1")).
  { intros v Hv. destruct (decide (v = 1000000%Z)) as [->|Hne].
    - right. by split.
    - left. rewrite Z.div_small by lia. by split. }
  assert (Hmod : ∀ v, (0 <= v)%Z -> digits_value (Py.low_digits 6 v) = (v mod 1000000)%Z).
  { intros v Hv. by rewrite low_digits_value. }
  pose proof (Z.div_mod u 1000000 ltac:(lia)) as Hdu.
  pose proof (Z.div_mod u' 1000000 ltac:(lia)) as Hdu'.
  pose proof (Hmod u ltac:(lia)) as Hm1. pose proof (Hmod u' ltac:(lia)) as Hm2.
  remember (Py.low_digits 6 u) as L eqn:HL. remember (Py.low_digits 6 u') as L' eqn:HL'.
  clear HL HL'.
  destruct (Hq u Hu) as [[Hq1 Hs1]|[Hq1 Hs1]], (Hq u' Hu') as [[Hq2 Hs2]|[Hq2 Hs2]];
    rewrite Hs1, Hs2 in H; cbv in H; try discriminate;
    injection H as H; rewrite H in Hm1; lia.
Qed.

Lemma units_injective a a' t :
  (0 <= a <= t)%Z -> (0 <= a' <= t)%Z -> (0 < t < 1000000)%Z ->
  Py.units 6 (Py.truediv a t) = Py.units 6 (Py.truediv a' t) -> a = a'.
Proof.
  intros Ha Ha' Ht Hu.
  pose proof (units_accuracy a t Ha ltac:(lia)) as H1.
  pose proof (units_accuracy a' t Ha' ltac:(lia)) as H2.
  rewrite Hu in H1. set (u := Py.units 6 (Py.truediv a' t)) in *.
  change (2 ^ 53)%Z with 9007199254740992%Z in *.
  change (2 ^ 52)%Z with 4503599627370496%Z in *.
  apply Z.abs_le in H1, H2. nia.
Qed.

(** Every written cell is within [0.5 * 10^-6 + 2^-52] of the exact
    quotient of its count by the number of valid sequences: the number of
    [10^-6] units it shows, times the total, is within
    [(1/2 + 10^6 * 2^-52) * total] of [10^6] times the count. *)
Theorem cell_accuracy base rows seqs i aa :
  carries rows seqs ->
  let st := (process_rows base initial rows).1 in
  0 < total_sequences st ->
  let count := Z.of_nat (get_count (mutation_counts st) i aa) in
  let total := Z.of_nat (total_sequences st) in
  let x := frequency (mutation_counts st) (total_sequences st) i aa in
  Py.format_f 6 x = Py.fixed 6 (Py.units 6 x)
  ∧ (Z.abs (2 ^ 53 * (Py.units 6 x * total - 1000000 * count))
     <= (2 ^ 52 + 2 * 1000000) * total)%Z.
Proof.
  intros Hrows st Hpos count total x.
  destruct (final_counts base rows seqs Hrows) as (Ht & _ & Hc). fold st in Ht, Hc.
  pose proof (count_mismatches_le base seqs i aa) as Hle.
  rewrite <- Hc, <- Ht in Hle.
  destruct (frequency_text count total) as [Htext _]; [unfold count, total; lia..|].
  split; [exact Htext|].
  apply units_accuracy; unfold count, total; lia.
Qed.

Lemma cell_accuracy_witness :
  let st := (process_rows "M" initial
               (reader_rows (single_column ["A"; "C"; "M"; "A"; "M"; "M"; "M"]))).1 in
  let x := frequency (mutation_counts st) (total_sequences st) 0 "A" in
  0 < total_sequences st
  ∧ Py.format_f 6 x = Py.fixed 6 (Py.units 6 x)
  ∧ Py.format_f 6 x = "0.285714".
Proof.
  intros st x.
  assert (Hpos : 0 < total_sequences st) by (vm_compute; lia).
  split; [exact Hpos|]. split.
  - exact (proj1 (cell_accuracy "M" _ _ 0 "A"%char
                    (carries_single_column ["A"; "C"; "M"; "A"; "M"; "M"; "M"]) Hpos)).
  - vm_compute. reflexivity.
Defined.

(** With fewer than a million valid sequences the table loses no count:
    two runs with the same total whose rows for a position read the same
    have the same count there for each of the 20 symbols. *)
Theorem counts_readable base rows1 rows2 seqs1 seqs2 i :
  carries rows1 seqs1 ->
  carries rows2 seqs2 ->
  let st1 := (process_rows base initial rows1).1 in
  let st2 := (process_rows base initial rows2).1 in
  total_sequences st1 = total_sequences st2 ->
  (0 < Z.of_nat (total_sequences st1) < 1000000)%Z ->
  frequency_row (mutation_counts st1) (total_sequences st1) i
  = frequency_row (mutation_counts st2) (total_sequences st2) i ->
  ∀ aa, In aa symbols ->
    get_count (mutation_counts st1) i aa = get_count (mutation_counts st2) i aa.
Proof.
  intros H1 H2 st1 st2 Ht Hlt Hrow aa Haa.
  destruct (final_counts base rows1 seqs1 H1) as (Ht1 & _ & Hc1). fold st1 in Ht1, Hc1.
  destruct (final_counts base rows2 seqs2 H2) as (Ht2 & _ & Hc2). fold st2 in Ht2, Hc2.
  pose proof (count_mismatches_le base seqs1 i aa) as Hle1. rewrite <- Hc1, <- Ht1 in Hle1.
  pose proof (count_mismatches_le base seqs2 i aa) as Hle2. rewrite <- Hc2, <- Ht2 in Hle2.
  unfold frequency_row in Hrow. apply (f_equal (@tail _)) in Hrow. cbn [tail] in Hrow.
  pose proof (proj1 (@map_ext_in_iff _ _ _ _ _) Hrow aa Haa) as Hcell. simpl in Hcell.
  unfold frequency in Hcell. rewrite <- Ht in *.
  set (t := Z.of_nat (total_sequences st1)) in *.
  set (a := Z.of_nat (get_count (mutation_counts st1) i aa)) in *.
  set (a' := Z.of_nat (get_count (mutation_counts st2) i aa)) in *.
  destruct (frequency_text a t) as [Ht1' Hb1]; [unfold a, t; lia..|].
  destruct (frequency_text a' t) as [Ht2' Hb2]; [unfold a', t; lia..|].
  rewrite Ht1', Ht2' in Hcell.
  apply fixed_injective in Hcell; [|done..].
  apply units_injective in Hcell; [|unfold a, a', t; lia..].
  unfold a, a' in Hcell. lia.
Qed.

Lemma counts_readable_witness :
  get_count (mutation_counts
               (process_rows "MK" initial (reader_rows (single_column ["AK"; "MR"; "CK"]))).1)
            0 "A"
  = get_count (mutation_counts
                 (process_rows "MK" initial (reader_rows (single_column ["CK"; "AR"; "MK"]))).1)
              0 "A".
Proof.
  apply (counts_readable "MK" _ _ _ _ 0
           (carries_single_column ["AK"; "MR"; "CK"])
           (carries_single_column ["CK"; "AR"; "MK"])).
  - reflexivity.
  - split; reflexivity.
  - vm_compute. reflexivity.
  - vm_compute. tauto.
Defined.

End CellText.

(** ** Further properties of plot_mutation_heatmap_v6 *)

Module PlotSpec.
Import Plot.

(** The cell of position [pos] under column [aa], when one row has the
    position. *)
Definition value_at (df : DataFrame) (pos : Z) (aa : string) : Q :=
  match rows_at df pos with
  | r :: _ => r.2 aa
  | [] => 0%Q
  end.

(** What is drawn for one cell of frequency [f]. *)
Definition cell_artists (norm : Normalize) (highlight_cells : gmap Z (list string))
    (i : nat) (aa : string) (j : nat) (pos : Z) (f : Q) : list artist :=
  [CellRect j i (if Qeq_bool f 0 then Fixed "#808080" else Mapped cmap_non_zero norm f)]
    ++ (if positive f then [CellText j i (Py.format_Q 2 f)] else [])
    ++ (if highlighted highlight_cells pos aa then [HighlightRect j i] else []).

(** The rows the request selects. *)
Definition selection (df : DataFrame) (positions : list Z) : DataFrame :=
  {| columns := columns df; rows := flat_map (rows_at df) positions |}.

(** The cells of a heatmap, amino acid by amino acid and, for each, position
    by position. *)
Definition heatmap_artists (df_selected : DataFrame) (positions : list Z)
    (norm : Normalize) (highlight_cells : gmap Z (list string)) : list artist :=
  concat (imap (fun i aa =>
                  concat (imap (fun j pos =>
                                  cell_artists norm highlight_cells i aa j pos
                                    (value_at df_selected pos aa))
                               positions))
               (columns df_selected)).

Definition figure_of (df : DataFrame) (positions : list Z)
    (highlight_cells : gmap Z (list string)) : Figure :=
  let sel := selection df positions in
  {| artists := heatmap_artists sel positions (norm_non_zero sel) highlight_cells;
     xticklabels := map Py.str_int positions;
     yticklabels := columns df;
     colorbar := norm_non_zero sel |}.

End PlotSpec.

Section Drawing.
Import Plot PlotSpec.

Lemma for_enumerate_exact {A} (body : nat -> A -> result (list artist))
    (g : nat -> A -> list artist) xs : forall k,
  (∀ n x, xs !! n = Some x -> body (k + n) x = inr (g (k + n) x)) ->
  for_enumerate body k xs = inr (concat (imap (fun n => g (k + n)) xs)).
Proof.
  induction xs as [|y xs IH]; intros k Hbody; [done|].
  cbn [for_enumerate]. rewrite imap_cons.
  pose proof (Hbody 0 y eq_refl) as H0. rewrite Nat.add_0_r in *. rewrite H0.
  rewrite (IH (S k)).
  - simpl. do 3 f_equal. apply imap_ext. intros n x _. simpl. f_equal. lia.
  - intros n x Hn. specialize (Hbody (S n) x Hn).
    by replace (k + S n) with (S k + n) in Hbody by lia.
Qed.

Lemma for_enumerate_inl {A} (body : nat -> A -> result (list artist)) xs :
  forall k e, for_enumerate body k xs = inl e ->
  ∃ n x, xs !! n = Some x ∧ body (k + n) x = inl e.
Proof.
  induction xs as [|y xs IH]; intros k e H; [done|].
  simpl in H. destruct (body k y) as [e'|drawn] eqn:Hb; simpl in H.
  - injection H as ->. exists 0, y. by rewrite Nat.add_0_r.
  - destruct (for_enumerate body (S k) xs) as [e'|rest] eqn:Hr; [|done]. simpl in H.
    injection H as ->. destruct (IH _ _ Hr) as (n & x & Hn & Hx).
    exists (S n), x. split; [done|]. by replace (k + S n) with (S k + n) by lia.
Qed.

Lemma draw_cell_exact sel norm hl i aa j pos drawn :
  draw_cell sel norm hl i aa j pos = inr drawn ->
  (∃ r, rows_at sel pos = [r])
  ∧ drawn = cell_artists norm hl i aa j pos (value_at sel pos aa).
Proof.
  unfold draw_cell, loc_scalar, value_at, cell_artists.
  destruct (rows_at sel pos) as [|r [|r' l]]; [done| |done]. simpl.
  intros H. split; [by exists r|].
  destruct (Qeq_bool (r.2 aa) 0); simpl in H.
  - by injection H as <-.
  - destruct (check_norm norm) as [e|[]]; [done|]. simpl in H. by injection H as <-.
Qed.

Lemma draw_cell_inl sel norm hl i aa j pos e :
  draw_cell sel norm hl i aa j pos = inl e ->
  rows_at sel pos ≠ [] -> ∃ msg, e = ValueError msg.
Proof.
  unfold draw_cell, loc_scalar.
  destruct (rows_at sel pos) as [|r [|r' l]]; [done| |]; simpl; intros H _.
  - destruct (Qeq_bool (r.2 aa) 0); simpl in H; [done|].
    unfold check_norm in H. destruct (vmin norm) as [m|]; simpl in H; [|done].
    destruct (Qle_bool m (vmax norm)); simpl in H; [done|].
    injection H as <-. eauto.
  - injection H as <-. eauto.
Qed.

(** A drawing that ends without exception drew exactly the cells of
    [heatmap_artists], and, when there is a column, found one row for each
    requested position. *)
Lemma draw_exact sel positions norm hl out :
  draw sel positions norm hl = inr out ->
  out = heatmap_artists sel positions norm hl
  ∧ (columns sel ≠ [] -> ∀ pos, In pos positions -> ∃ r, rows_at sel pos = [r]).
Proof.
  intros Hdraw. unfold draw in Hdraw.
  assert (Hcell : ∀ i aa, columns sel !! i = Some aa ->
            ∀ j pos, positions !! j = Some pos ->
            draw_cell sel norm hl i aa j pos
            = inr (cell_artists norm hl i aa j pos (value_at sel pos aa))
            ∧ ∃ r, rows_at sel pos = [r]).
  { intros i aa Hi j pos Hj.
    destruct (for_enumerate_inr _ _ _ _ Hdraw i aa Hi) as (d1 & Hd1 & _).
    destruct (for_enumerate_inr _ _ _ _ Hd1 j pos Hj) as (d2 & Hd2 & _).
    simpl in Hd2. destruct (draw_cell_exact _ _ _ _ _ _ _ _ Hd2) as [Hr ->]. done. }
  split.
  - rewrite (for_enumerate_exact _
               (fun i aa => concat (imap (fun j pos =>
                    cell_artists norm hl i aa j pos (value_at sel pos aa)) positions))) in Hdraw.
    + by injection Hdraw as <-.
    + intros i aa Hi. simpl.
      rewrite (for_enumerate_exact _
                 (fun j pos => cell_artists norm hl i aa j pos (value_at sel pos aa))); [done|].
      intros j pos Hj. simpl. by apply Hcell.
  - intros Hcols pos Hpos.
    destruct (columns sel) as [|aa l] eqn:Hc; [done|].
    apply list_elem_of_In, list_elem_of_lookup in Hpos as [j Hj].
    by apply (Hcell 0 aa eq_refl j pos Hj).
Qed.

End Drawing.

Section Selecting.
Import Plot PlotSpec.

Lemma rows_at_label df p r : In r (rows_at df p) -> r.1 = p.
Proof. unfold rows_at. rewrite filter_In. intros [_ H]. by apply Z.eqb_eq. Qed.

Lemma filter_rows_at df p pos :
  List.filter (fun r : Z * (string -> Q) => Z.eqb r.1 pos) (rows_at df p)
  = if Z.eqb p pos then rows_at df p else [].
Proof.
  assert (H : ∀ l : list (Z * (string -> Q)), (∀ r, In r l -> r.1 = p) ->
            List.filter (fun r => Z.eqb r.1 pos) l = if Z.eqb p pos then l else []).
  { induction l as [|r l IH]; intros Hl; simpl.
    - by destruct (Z.eqb p pos).
    - rewrite (Hl r) by by left. rewrite IH by (intros; apply Hl; by right).
      by destruct (Z.eqb p pos). }
  apply H. intros r. apply rows_at_label.
Qed.

(** The rows of a position in the selection: those of the table, once for
    each time the position is requested. *)
Lemma rows_at_selection df positions pos :
  rows_at (selection df positions) pos
  = flat_map (fun p => if Z.eqb p pos then rows_at df p else []) positions.
Proof.
  unfold rows_at at 1, selection. simpl.
  induction positions as [|p ps IH]; simpl; [done|].
  by rewrite List.filter_app, filter_rows_at, IH.
Qed.

Lemma flat_map_pick_absent {B} (X : Z -> list B) pos ps :
  ¬ In pos ps -> flat_map (fun p => if Z.eqb p pos then X p else []) ps = [].
Proof.
  induction ps as [|p ps IH]; simpl; [done|]. intros Hnot.
  destruct (Z.eqb_spec p pos) as [->|_]; [tauto|]. apply IH. tauto.
Qed.

Lemma flat_map_pick_unique {B} (X : Z -> list B) pos ps :
  NoDup ps -> In pos ps ->
  flat_map (fun p => if Z.eqb p pos then X p else []) ps = X pos.
Proof.
  induction 1 as [|p ps Hp _ IH]; simpl; [done|].
  rewrite list_elem_of_In in Hp.
  intros [->|Hin].
  - rewrite Z.eqb_refl, flat_map_pick_absent by done. apply app_nil_r.
  - destruct (Z.eqb_spec p pos) as [->|_]; [done|]. by apply IH.
Qed.

Lemma flat_map_pick_present {B} (X : Z -> list B) pos ps :
  In pos ps -> X pos ≠ [] ->
  flat_map (fun p => if Z.eqb p pos then X p else []) ps ≠ [].
Proof.
  induction ps as [|p ps IH]; simpl; [done|].
  intros [->|Hin] HX.
  - rewrite Z.eqb_refl. destruct (X pos); [done|]. done.
  - intros Happ. apply app_eq_nil in Happ as [_ H]. by apply IH.
Qed.

(** If picking the rows of each requested position gives one row, the
    positions are requested once each and have one row each. *)
Lemma flat_map_pick_single {B} (X : Z -> list B) ps :
  (∀ p, In p ps -> X p ≠ []) ->
  (∀ pos, In pos ps ->
     ∃ r, flat_map (fun p => if Z.eqb p pos then X p else []) ps = [r]) ->
  NoDup ps ∧ ∀ p, In p ps -> ∃ r, X p = [r].
Proof.
  induction ps as [|p ps IH]; intros Hne Hone.
  - split; [constructor|done].
  - destruct (Hone p ltac:(by left)) as [r Hr]. simpl in Hr. rewrite Z.eqb_refl in Hr.
    assert (HXp : X p = [r] ∧ flat_map (fun q => if Z.eqb q p then X q else []) ps = []).
    { pose proof (Hne p ltac:(by left)) as Hp.
      destruct (X p) as [|x [|y l]]; [done| |].
      - simpl in Hr. injection Hr as -> Hr. done.
      - simpl in Hr. injection Hr as _ Hr. done. }
    destruct HXp as [HXp Hrest].
    assert (Hnotin : ¬ In p ps).
    { intros Hin. apply (flat_map_pick_present X p ps Hin); [|done].
      apply Hne. by left. }
    destruct IH as [Hnd Hall].
    + intros q Hq. apply Hne. by right.
    + intros pos Hpos. destruct (Hone pos ltac:(by right)) as [r' Hr']. simpl in Hr'.
      destruct (Z.eqb_spec p pos) as [->|_]; [done|]. by exists r'.
    + split.
      * apply NoDup_cons. split; [by rewrite list_elem_of_In|done].
      * intros q [<-|Hq]; [by exists r|by apply Hall].
Qed.

Lemma in_index_rows_at df p : In p (index df) <-> rows_at df p ≠ [].
Proof.
  unfold index, rows_at. split.
  - intros Hin. apply in_map_iff in Hin as (r & <- & Hr).
    intros Hnil.
    assert (H : In r (List.filter (fun r' : Z * (string -> Q) => Z.eqb r'.1 r.1) (rows df))).
    { apply filter_In. split; [done|apply Z.eqb_refl]. }
    by rewrite Hnil in H.
  - intros Hne. destruct (List.filter _ (rows df)) as [|r l] eqn:Hf; [done|].
    assert (H : In r (List.filter (fun r' : Z * (string -> Q) => Z.eqb r'.1 p) (rows df)))
      by (rewrite Hf; by left).
    apply filter_In in H as [Hr Hp]. apply Z.eqb_eq in Hp. subst p.
    apply in_map_iff. by exists r.
Qed.

Lemma loc_selection df positions :
  (∀ p, In p positions -> In p (index df)) ->
  loc df positions = inr (selection df positions).
Proof.
  intros Hall. unfold loc.
  destruct (List.filter _ positions) as [|q l] eqn:Hf; [done|].
  assert (H : In q (List.filter (fun p => negb (existsb (Z.eqb p) (index df))) positions))
    by (rewrite Hf; by left).
  apply filter_In in H as [Hq Hex]. apply negb_true_iff in Hex.
  assert (existsb (Z.eqb q) (index df) = true); [|congruence].
  apply existsb_exists. exists q. split; [by apply Hall|apply Z.eqb_refl].
Qed.

Lemma loc_inr_selection df positions sel :
  loc df positions = inr sel ->
  sel = selection df positions ∧ ∀ p, In p positions -> In p (index df).
Proof.
  intros H. destruct (loc_inr _ _ _ H) as (Hc & Hr & Hall).
  split; [|done]. destruct sel as [c r]. simpl in *. by subst.
Qed.

Lemma index_selection df positions :
  (∀ p, In p positions -> ∃ r, rows_at df p = [r]) ->
  index (selection df positions) = positions.
Proof.
  unfold index, selection. simpl.
  induction positions as [|p ps IH]; intros Hall; simpl; [done|].
  destruct (Hall p ltac:(by left)) as [r Hr]. rewrite Hr. simpl.
  rewrite IH by (intros; apply Hall; by right).
  f_equal. apply (rows_at_label df p). rewrite Hr. by left.
Qed.

End Selecting.

Section PlotMore.
Import Plot PlotSpec.

Variable backend : Figure -> option exception.

(** The line an exception prints. *)
Definition line_of (input_csv_file : string) (e : exception) : message :=
  match e with
  | FileNotFoundError => InputNotFound input_csv_file
  | KeyError _ => PositionNotFound e
  | _ => Unexpected e
  end.

(** The outcome once the figure is drawn: saved when the renderer accepts
    it, else the renderer's failure printed. *)
Definition rendered (input_csv_file output_filename : string) (fig : Figure) : outcome :=
  match backend fig with
  | None => {| printed := [HeatmapSaved output_filename];
               saved := Some (output_filename, fig);
               raised := None |}
  | Some e => {| printed := [line_of input_csv_file e]; saved := None; raised := None |}
  end.

Lemma vmin_at_most_one sel m :
  (∀ r aa, In r (rows sel) -> In aa (columns sel) -> (r.2 aa <= 1)%Q) ->
  vmin_non_zero sel = Some m -> (m <= 1)%Q.
Proof.
  intros Hle. unfold vmin_non_zero. destruct (empty sel).
  - intros [= <-]. done.
  - intros Hm. apply min_positive_member in Hm as [Hin _].
    apply in_cells in Hin as (r & aa & Hr & Haa & ->). by apply Hle.
Qed.

Lemma in_selection_rows df positions r :
  In r (rows (selection df positions)) -> In r (rows df).
Proof.
  unfold selection. simpl. rewrite in_flat_map. intros (p & _ & Hr).
  unfold rows_at in Hr. by apply filter_In in Hr as [Hr _].
Qed.

(** On a table of frequencies at most 1, with the requested positions
    distinct and each on one row of the table, nothing fails before the
    renderer: the figure handed over is [figure_of], with the cells in the
    order of the request, and it is saved exactly when the renderer accepts
    it. *)
Theorem plot_reaches_renderer fs input_csv_file positions hl output_filename df :
  fs input_csv_file = Indexed df ->
  NoDup positions ->
  (∀ p, In p positions -> ∃ r, rows_at df p = [r]) ->
  (∀ r aa, In r (rows df) -> In aa (columns df) -> (r.2 aa <= 1)%Q) ->
  plot_mutation_heatmap_v6 backend fs input_csv_file positions hl output_filename
  = rendered input_csv_file output_filename (figure_of df positions hl).
Proof.
  intros Hfs Hnd Hone Hle.
  assert (Hloc : loc df positions = inr (selection df positions)).
  { apply loc_selection. intros p Hp. apply in_index_rows_at.
    destruct (Hone p Hp) as [r ->]. done. }
  set (sel := selection df positions) in *.
  assert (Hnorm : check_norm (norm_non_zero sel) = inr tt).
  { unfold check_norm. simpl. destruct (vmin_non_zero sel) as [m|] eqn:Hm; [|done].
    assert (Hm1 : (m <= 1)%Q).
    { apply (vmin_at_most_one sel m); [|done].
      intros r aa Hr Haa. apply Hle; [by apply (in_selection_rows df positions)|done]. }
    apply Qle_bool_iff in Hm1. by rewrite Hm1. }
  assert (Hdraw : draw sel positions (norm_non_zero sel) hl
                  = inr (heatmap_artists sel positions (norm_non_zero sel) hl)).
  { unfold draw, heatmap_artists.
    apply (for_enumerate_exact _
             (fun i aa => concat (imap (fun j pos =>
                  cell_artists (norm_non_zero sel) hl i aa j pos (value_at sel pos aa))
                positions))).
    intros i aa _. simpl.
    apply (for_enumerate_exact _
             (fun j pos => cell_artists (norm_non_zero sel) hl i aa j pos (value_at sel pos aa))).
    intros j pos Hj. simpl.
    assert (Hpos : In pos positions).
    { apply list_elem_of_In, list_elem_of_lookup. by exists j. }
    destruct (Hone pos Hpos) as [r Hr].
    unfold draw_cell, loc_scalar, value_at, cell_artists.
    unfold sel. rewrite rows_at_selection, flat_map_pick_unique, Hr by done. simpl.
    destruct (Qeq_bool (r.2 aa) 0); [done|].
    fold sel. by rewrite Hnorm. }
  unfold plot_mutation_heatmap_v6, build, rendered. rewrite Hfs. simpl.
  rewrite Hloc. simpl. fold sel. rewrite Hdraw. simpl.
  assert (Hidx : index sel = positions) by by apply index_selection.
  rewrite Hidx.
  change {| artists := heatmap_artists sel positions (norm_non_zero sel) hl;
                      xticklabels := map Py.str_int positions;
                      yticklabels := columns df;
                      colorbar := norm_non_zero sel |}
    with (figure_of df positions hl).
  destruct (backend (figure_of df positions hl)) as [e|]; [|done].
  by destruct e.
Qed.

(** What a figure that [build] returns is. *)
Lemma build_inv fs input_csv_file positions hl fig :
  build backend fs input_csv_file positions hl = inr fig ->
  ∃ df,
    fs input_csv_file = Indexed df
    ∧ backend fig = None
    ∧ artists fig
      = heatmap_artists (selection df positions) positions
          (norm_non_zero (selection df positions)) hl
    ∧ yticklabels fig = columns df
    ∧ colorbar fig = norm_non_zero (selection df positions)
    ∧ (columns df ≠ [] ->
       NoDup positions
       ∧ (∀ p, In p positions -> ∃ r, rows_at df p = [r])
       ∧ fig = figure_of df positions hl).
Proof.
  intros Hb. unfold build in Hb.
  destruct (fs input_csv_file) as [| |df] eqn:Hfs; [done|done|]. simpl in Hb.
  destruct (loc df positions) as [e|sel] eqn:Hloc; [done|]. simpl in Hb.
  apply loc_inr_selection in Hloc as [-> Hin].
  set (sel := selection df positions) in *.
  destruct (draw sel positions (norm_non_zero sel) hl) as [e|drawn] eqn:Hd; [done|].
  simpl in Hb.
  destruct (draw_exact _ _ _ _ _ Hd) as [-> Hrows].
  destruct (backend _) as [e|] eqn:Hbk; [done|]. injection Hb as <-.
  exists df. split; [done|]. split; [exact Hbk|].
  split; [reflexivity|]. split; [reflexivity|]. split; [reflexivity|].
  intros Hcols.
  destruct (flat_map_pick_single (rows_at df) positions) as [Hnd Hone].
  { intros p Hp. by apply in_index_rows_at, Hin. }
  { intros pos Hpos. destruct (Hrows Hcols pos Hpos) as [r Hr].
    exists r. by rewrite <- rows_at_selection. }
  assert (Hidx : index sel = positions) by by apply index_selection.
  split; [done|]. split; [done|].
  unfold figure_of. fold sel. by rewrite Hidx.
Qed.

Lemma saved_build fs input_csv_file positions hl output_filename path fig :
  saved (plot_mutation_heatmap_v6 backend fs input_csv_file positions hl output_filename)
    = Some (path, fig) ->
  path = output_filename ∧ build backend fs input_csv_file positions hl = inr fig.
Proof.
  unfold plot_mutation_heatmap_v6.
  destruct (build backend fs input_csv_file positions hl) as [e|fig'] eqn:Hb.
  { by destruct e. }
  simpl. by intros [= <- <-].
Qed.

(** A heatmap that is saved, of a table with at least one column, is
    [figure_of]: the positions were requested once each and stand on one row
    of the table each, the horizontal axis shows them in the order of the
    request, the vertical axis shows the table's columns, and the renderer
    accepted the figure. *)
Theorem saved_figure fs input_csv_file positions hl output_filename path fig :
  saved (plot_mutation_heatmap_v6 backend fs input_csv_file positions hl output_filename)
    = Some (path, fig) ->
  ∃ df,
    fs input_csv_file = Indexed df
    ∧ path = output_filename
    ∧ backend fig = None
    ∧ artists fig
      = heatmap_artists (selection df positions) positions
          (norm_non_zero (selection df positions)) hl
    ∧ yticklabels fig = columns df
    ∧ (columns df ≠ [] ->
       NoDup positions
       ∧ (∀ p, In p positions -> ∃ r, rows_at df p = [r])
       ∧ xticklabels fig = map Py.str_int positions
       ∧ fig = figure_of df positions hl).
Proof.
  intros Hs. apply saved_build in Hs as [-> Hb].
  apply build_inv in Hb as (df & Hfs & Hbk & Hart & Hy & _ & Hgrid).
  exists df. do 5 (split; [done|]).
  intros Hcols. destruct (Hgrid Hcols) as (Hnd & Hone & ->). done.
Qed.

(** A failure of the drawing loop, all requested positions being in the
    selection, is a [ValueError]. *)
Lemma draw_inl sel positions norm hl e :
  draw sel positions norm hl = inl e ->
  (∀ p, In p positions -> rows_at sel p ≠ []) ->
  ∃ msg, e = ValueError msg.
Proof.
  intros Hd Hrows. unfold draw in Hd.
  apply for_enumerate_inl in Hd as (i & aa & _ & Hd).
  apply for_enumerate_inl in Hd as (j & pos & Hj & Hd). simpl in Hd.
  apply (draw_cell_inl _ _ _ _ _ _ _ _ Hd), Hrows.
  apply list_elem_of_In, list_elem_of_lookup. by exists j.
Qed.

Lemma rows_at_selection_present df positions p :
  (∀ q, In q positions -> In q (index df)) ->
  In p positions -> rows_at (selection df positions) p ≠ [].
Proof.
  intros Hin Hp. rewrite rows_at_selection.
  apply flat_map_pick_present; [done|]. by apply in_index_rows_at, Hin.
Qed.


Lemma existsb_index df p : existsb (Z.eqb p) (index df) = true <-> In p (index df).
Proof.
  rewrite existsb_exists. split.
  - intros (x & Hx & Heq). apply Z.eqb_eq in Heq. by subst.
  - intros Hp. exists p. split; [done|apply Z.eqb_refl].
Qed.

Lemma flat_map_ext_In {A B} (f g : A -> list B) l :
  (∀ x, In x l -> f x = g x) -> flat_map f l = flat_map g l.
Proof.
  induction l as [|x l IH]; intros H; simpl; [done|].
  rewrite (H x) by by left. rewrite IH; [done|]. intros y Hy. apply H. by right.
Qed.

Lemma loc_ext df1 df2 positions :
  columns df1 = columns df2 ->
  (∀ p, In p positions -> rows_at df1 p = rows_at df2 p) ->
  loc df1 positions = loc df2 positions.
Proof.
  intros Hcols Hrows. unfold loc.
  rewrite (filter_ext_in (fun p => negb (existsb (Z.eqb p) (index df1)))
             (fun p => negb (existsb (Z.eqb p) (index df2)))).
  - by rewrite Hcols, (flat_map_ext_In (rows_at df1) (rows_at df2)).
  - intros p Hp. f_equal. apply eq_true_iff_eq.
    by rewrite !existsb_index, !in_index_rows_at, Hrows.
Qed.

(** Only the requested rows are read: two tables with the same columns and
    the same rows at every requested position give the same run, whatever
    their other rows are. *)
Theorem only_requested_rows fs1 fs2 input_csv_file positions hl output_filename df1 df2 :
  fs1 input_csv_file = Indexed df1 ->
  fs2 input_csv_file = Indexed df2 ->
  columns df1 = columns df2 ->
  (∀ p, In p positions -> rows_at df1 p = rows_at df2 p) ->
  plot_mutation_heatmap_v6 backend fs1 input_csv_file positions hl output_filename
  = plot_mutation_heatmap_v6 backend fs2 input_csv_file positions hl output_filename.
Proof.
  intros H1 H2 Hcols Hrows.
  unfold plot_mutation_heatmap_v6, build. rewrite H1, H2. simpl.
  rewrite (loc_ext df1 df2 positions Hcols Hrows).
  destruct (loc df2 positions) as [e|sel]; simpl.
  - by destruct e.
  - destruct (draw sel positions (norm_non_zero sel) hl) as [e|drawn]; simpl.
    + by destruct e.
    + destruct (backend _) as [e|]; [by destruct e|done].
Qed.

Lemma in_concat_imap {A B} (f : nat -> A -> list B) (l : list A) b :
  In b (concat (imap f l)) <-> ∃ n x, l !! n = Some x ∧ In b (f n x).
Proof.
  revert f. induction l as [|a l IH]; intros f.
  - simpl. split; [done|]. by intros (n & x & Hn & _).
  - rewrite imap_cons. cbn [concat]. rewrite in_app_iff, IH. split.
    + intros [H|(n & x & Hn & Hx)]; [by exists 0, a|by exists (S n), x].
    + intros (n & x & Hn & Hx). destruct n as [|n]; simpl in Hn.
      * left. by injection Hn as ->.
      * right. by exists n, x.
Qed.

Lemma in_heatmap_artists sel positions norm hl a :
  In a (heatmap_artists sel positions norm hl)
  <-> ∃ i aa j pos, columns sel !! i = Some aa ∧ positions !! j = Some pos
                    ∧ In a (cell_artists norm hl i aa j pos (value_at sel pos aa)).
Proof.
  unfold heatmap_artists. rewrite in_concat_imap. split.
  - intros (i & aa & Hi & H). apply in_concat_imap in H as (j & pos & Hj & H).
    by exists i, aa, j, pos.
  - intros (i & aa & j & pos & Hi & Hj & H). exists i, aa. split; [done|].
    apply in_concat_imap. by exists j, pos.
Qed.

Lemma in_cell_text norm hl i aa j pos f j' i' label :
  In (CellText j' i' label) (cell_artists norm hl i aa j pos f)
  <-> j' = j ∧ i' = i ∧ (0 < f)%Q ∧ label = Py.format_Q 2 f.
Proof.
  unfold cell_artists. rewrite <- positive_lt. cbn [app In]. rewrite in_app_iff. split.
  - intros [H|[H|H]]; [done| |].
    + destruct (positive f); [|done]. destruct H as [H|[]]. by injection H as -> -> ->.
    + destruct (highlighted hl pos aa); [|done]. by destruct H as [H|[]].
  - intros (-> & -> & -> & ->). right. left. by left.
Qed.

Lemma highlighted_spec hl pos aa :
  highlighted hl pos aa = true <-> ∃ l, hl !! pos = Some l ∧ In aa l.
Proof.
  unfold highlighted. destruct (hl !! pos) as [l|].
  - rewrite existsb_exists. split.
    + intros (x & Hx & Heq). apply String.eqb_eq in Heq. subst. by exists l.
    + intros (l' & [= <-] & Hin). exists aa. split; [done|apply String.eqb_refl].
  - split; [done|]. by intros (l & ? & _).
Qed.

Lemma in_highlight_rect norm hl i aa j pos f j' i' :
  In (HighlightRect j' i') (cell_artists norm hl i aa j pos f)
  <-> j' = j ∧ i' = i ∧ highlighted hl pos aa = true.
Proof.
  unfold cell_artists. cbn [app In]. rewrite in_app_iff. split.
  - intros [H|[H|H]]; [done| |].
    + destruct (positive f); [|done]. by destruct H as [H|[]].
    + destruct (highlighted hl pos aa); [|done]. destruct H as [H|[]]. by injection H as -> ->.
  - intros (-> & -> & ->). right. right. by left.
Qed.

(** The frequency a saved heatmap shows for a requested position: that of
    the position's one row. *)
Lemma value_at_single df positions pos aa r :
  NoDup positions -> In pos positions -> rows_at df pos = [r] ->
  value_at (selection df positions) pos aa = r.2 aa.
Proof.
  intros Hnd Hpos Hr. unfold value_at.
  by rewrite rows_at_selection, flat_map_pick_unique, Hr.
Qed.

(** The labels of a saved heatmap: a cell carries a label exactly when its
    frequency is above zero, and the label is the frequency with two
    decimals; no label stands outside the grid of the table's columns and the
    requested positions. *)
Theorem labels_of_positive_cells fs input_csv_file positions hl output_filename
    path fig df j i label :
  fs input_csv_file = Indexed df ->
  saved (plot_mutation_heatmap_v6 backend fs input_csv_file positions hl output_filename)
    = Some (path, fig) ->
  In (CellText j i label) (artists fig)
  <-> ∃ aa pos r,
        columns df !! i = Some aa
        ∧ positions !! j = Some pos
        ∧ rows_at df pos = [r]
        ∧ (0 < r.2 aa)%Q
        ∧ label = Py.format_Q 2 (r.2 aa).
Proof.
  intros Hfs Hs. apply saved_build in Hs as [_ Hb].
  apply build_inv in Hb as (df' & Hfs' & _ & Hart & _ & _ & Hgrid).
  rewrite Hfs in Hfs'. injection Hfs' as <-.
  rewrite Hart, in_heatmap_artists. split.
  - intros (i' & aa & j' & pos & Hi & Hj & Hin).
    apply in_cell_text in Hin as (<- & <- & Hpos & ->).
    assert (Hcols : columns df ≠ []) by (intros Hnil; simpl in Hi; by rewrite Hnil in Hi).
    destruct (Hgrid Hcols) as (Hnd & Hone & _).
    assert (Hp : In pos positions).
    { apply list_elem_of_In, list_elem_of_lookup. by exists j. }
    destruct (Hone pos Hp) as [r Hr].
    rewrite (value_at_single df positions pos aa r Hnd Hp Hr) in *.
    by exists aa, pos, r.
  - intros (aa & pos & r & Hi & Hj & Hr & Hpos & ->).
    assert (Hcols : columns df ≠ []) by (intros Hnil; by rewrite Hnil in Hi).
    destruct (Hgrid Hcols) as (Hnd & _ & _).
    assert (Hp : In pos positions).
    { apply list_elem_of_In, list_elem_of_lookup. by exists j. }
    exists i, aa, j, pos. split; [done|]. split; [done|].
    apply in_cell_text. by rewrite (value_at_single df positions pos aa r Hnd Hp Hr).
Qed.

(** The orange frames of a saved heatmap: a cell is framed exactly when the
    highlights list its amino acid under its position.  Highlights for
    positions that are not requested, or for amino acids that are no column
    of the table, draw nothing. *)
Theorem frames_follow_highlights fs input_csv_file positions hl output_filename
    path fig df j i :
  fs input_csv_file = Indexed df ->
  saved (plot_mutation_heatmap_v6 backend fs input_csv_file positions hl output_filename)
    = Some (path, fig) ->
  In (HighlightRect j i) (artists fig)
  <-> ∃ aa pos l,
        columns df !! i = Some aa
        ∧ positions !! j = Some pos
        ∧ hl !! pos = Some l
        ∧ In aa l.
Proof.
  intros Hfs Hs. apply saved_build in Hs as [_ Hb].
  apply build_inv in Hb as (df' & Hfs' & _ & Hart & _ & _ & _).
  rewrite Hfs in Hfs'. injection Hfs' as <-.
  rewrite Hart, in_heatmap_artists. split.
  - intros (i' & aa & j' & pos & Hi & Hj & Hin).
    apply in_highlight_rect in Hin as (<- & <- & Hh).
    apply highlighted_spec in Hh as (l & Hl & Haa). by exists aa, pos, l.
  - intros (aa & pos & l & Hi & Hj & Hl & Haa).
    exists i, aa, j, pos. split; [done|]. split; [done|].
    apply in_highlight_rect. split; [done|]. split; [done|].
    apply highlighted_spec. by exists l.
Qed.

Lemma format_small (f : Q) : (0 < f)%Q -> (f <= 1 # 200)%Q -> Py.format_Q 2 f = "0.00".
Proof.
  destruct f as [n d]. unfold Qlt, Qle, Py.format_Q. simpl. intros Hpos Hle.
  assert (Hn : (n <? 0)%Z = false) by (apply Z.ltb_ge; lia). rewrite Hn.
  assert (Hz : Py.div_half_even (Z.abs n * 100) (Z.pos d) = 0%Z).
  { unfold Py.div_half_even.
    assert (Hq : (Z.abs n * 100 / Z.pos d = 0)%Z) by (apply Z.div_small; lia).
    assert (Hr : (Z.abs n * 100 mod Z.pos d = Z.abs n * 100)%Z) by (apply Z.mod_small; lia).
    rewrite Hq, Hr.
    destruct (Z.compare_spec (2 * (Z.abs n * 100)) (Z.pos d)); [done|done|lia]. }
  change (10 ^ Z.of_nat 2)%Z with 100%Z. by rewrite Hz.
Qed.

(** A frequency above zero and strictly below 1/200 carries, in a saved
    heatmap, the label 0.00 and no other: a cell that is labelled can read
    as zero. *)
Theorem faint_cell_label fs input_csv_file positions hl output_filename
    path fig df j i aa pos r :
  fs input_csv_file = Indexed df ->
  saved (plot_mutation_heatmap_v6 backend fs input_csv_file positions hl output_filename)
    = Some (path, fig) ->
  columns df !! i = Some aa ->
  positions !! j = Some pos ->
  rows_at df pos = [r] ->
  (0 < r.2 aa)%Q ->
  (r.2 aa < 1 # 200)%Q ->
  In (CellText j i "0.00") (artists fig)
  ∧ ∀ label, In (CellText j i label) (artists fig) -> label = "0.00".
Proof.
  intros Hfs Hs Hi Hj Hr Hpos Hlt. apply saved_build in Hs as [_ Hb].
  apply build_inv in Hb as (df' & Hfs' & _ & Hart & _ & _ & Hgrid).
  rewrite Hfs in Hfs'. injection Hfs' as <-.
  assert (Hcols : columns df ≠ []) by (intros Hnil; by rewrite Hnil in Hi).
  destruct (Hgrid Hcols) as (Hnd & _ & _).
  assert (Hp : In pos positions).
  { apply list_elem_of_In, list_elem_of_lookup. by exists j. }
  assert (Hval : value_at (selection df positions) pos aa = r.2 aa)
    by by apply value_at_single.
  assert (Htext : Py.format_Q 2 (r.2 aa) = "0.00")
    by (apply format_small; [done|by apply Qlt_le_weak]).
  rewrite Hart. split.
  - apply in_heatmap_artists. exists i, aa, j, pos. split; [done|]. split; [done|].
    apply in_cell_text. by rewrite Hval, Htext.
  - intros label Hin.
    apply in_heatmap_artists in Hin as (i' & aa' & j' & pos' & Hi' & Hj' & Hin).
    apply in_cell_text in Hin as (<- & <- & _ & ->).
    simpl in Hi'. rewrite Hi in Hi'. injection Hi' as <-.
    rewrite Hj in Hj'. injection Hj' as <-.
    by rewrite Hval.
Qed.

(** The line "Position ... not found" has three causes: the table has no
    column "Position"; a requested position is not in the table, and the
    line then carries exactly the requested positions that are missing; or the
    renderer raised a [KeyError] of its own. *)
Theorem position_line_causes fs input_csv_file positions hl output_filename e :
  printed (plot_mutation_heatmap_v6 backend fs input_csv_file positions hl output_filename)
    = [PositionNotFound e] ->
  (fs input_csv_file = NoPositionColumn ∧ e = KeyError (Column "Position"))
  ∨ (∃ df not_found,
       fs input_csv_file = Indexed df
       ∧ e = KeyError (Labels not_found)
       ∧ not_found ≠ []
       ∧ ∀ q, In q not_found <-> In q positions ∧ ¬ In q (index df))
  ∨ (∃ fig k, backend fig = Some e ∧ e = KeyError k).
Proof.
  unfold plot_mutation_heatmap_v6, build.
  destruct (fs input_csv_file) as [| |df] eqn:Hfs; simpl.
  - discriminate.
  - intros [= <-]. by left.
  - destruct (loc df positions) as [e'|sel] eqn:Hloc; simpl.
    + intros Hp. right. left. unfold loc in Hloc.
      destruct (List.filter _ positions) as [|q0 l] eqn:Hf; [done|].
      injection Hloc as <-. simpl in Hp. injection Hp as <-.
      exists df, (unique (q0 :: l)). split; [done|]. split; [done|]. split.
      * intros Hnil. assert (H : In q0 (unique (q0 :: l))) by (apply in_unique; by left).
        by rewrite Hnil in H.
      * intros q. rewrite in_unique, <- Hf, filter_In, negb_true_iff.
        rewrite <- existsb_index. destruct (existsb (Z.eqb q) (index df)); intuition congruence.
    + apply loc_inr_selection in Hloc as [-> Hin].
      destruct (draw _ positions _ hl) as [e'|drawn] eqn:Hd; simpl.
      * destruct (draw_inl _ _ _ _ _ Hd) as [msg ->]; [|done].
        intros p Hp. by apply rows_at_selection_present.
      * destruct (backend _) as [e'|] eqn:Hbk; simpl; [|done].
        intros Hp. right. right.
        destruct e' as [|k|msg|msg]; simpl in Hp; try discriminate.
        injection Hp as <-. eauto.
Qed.

End PlotMore.

(** Two requests on the table of three positions. *)
Lemma plot_reaches_renderer_witness :
  small_plot [2; 3]%Z
  = {| Plot.printed := [Plot.HeatmapSaved "mutation_frequency_heatmap.png"];
       Plot.saved := Some ("mutation_frequency_heatmap.png",
                           PlotSpec.figure_of small_table [2; 3]%Z small_highlight);
       Plot.raised := None |}.
Proof.
  unfold small_plot.
  rewrite (plot_reaches_renderer (fun _ => None) small_fs "mutation_frequencies.csv"
             [2; 3]%Z small_highlight "mutation_frequency_heatmap.png" small_table eq_refl).
  - reflexivity.
  - apply (bool_decide_eq_true_1 (NoDup [2; 3]%Z)). vm_compute. reflexivity.
  - intros p [<-|[<-|[]]]; eexists; reflexivity.
  - intros r aa [<-|[<-|[<-|[]]]] [<-|[<-|[]]]; vm_compute; discriminate.
Defined.

Lemma saved_figure_witness :
  ∃ fig,
    Plot.saved (small_plot [3; 2]%Z) = Some ("mutation_frequency_heatmap.png", fig)
    ∧ Plot.xticklabels fig = ["3"; "2"]
    ∧ fig = PlotSpec.figure_of small_table [3; 2]%Z small_highlight.
Proof.
  assert (Hsaved : ∃ fig, Plot.saved (small_plot [3; 2]%Z)
                          = Some ("mutation_frequency_heatmap.png", fig)).
  { eexists. vm_compute. reflexivity. }
  destruct Hsaved as [fig Hfig].
  destruct (saved_figure (fun _ => None) small_fs "mutation_frequencies.csv" [3; 2]%Z
              small_highlight "mutation_frequency_heatmap.png" _ fig Hfig)
    as (df & Hfs & _ & _ & _ & _ & Hgrid).
  injection Hfs as <-.
  destruct (Hgrid ltac:(discriminate)) as (_ & _ & Hx & Hf).
  exists fig. split; [exact Hfig|]. split; [exact Hx|exact Hf].
Defined.


(** The table of three positions with another first row. *)
Definition other_table : Plot.DataFrame :=
  {| Plot.columns := ["A"; "C"];
     Plot.rows :=
       [ (1%Z, fun aa => (3 # 4)%Q);
         (2%Z, fun aa => if String.eqb aa "A" then (1 # 2)%Q else (1 # 4)%Q);
         (3%Z, fun aa => 0%Q);
         (4%Z, fun aa => 1%Q) ] |}.

Lemma only_requested_rows_witness :
  small_plot [2; 3]%Z
  = Plot.plot_mutation_heatmap_v6 (fun _ => None) (fun _ => Plot.Indexed other_table)
      "mutation_frequencies.csv" [2; 3]%Z small_highlight "mutation_frequency_heatmap.png".
Proof.
  apply (only_requested_rows (fun _ => None) small_fs (fun _ => Plot.Indexed other_table)
           "mutation_frequencies.csv" [2; 3]%Z small_highlight
           "mutation_frequency_heatmap.png" small_table other_table eq_refl eq_refl eq_refl).
  intros p [<-|[<-|[]]]; reflexivity.
Defined.

Lemma labels_of_positive_cells_witness :
  ∃ fig,
    Plot.saved (small_plot [2; 3]%Z) = Some ("mutation_frequency_heatmap.png", fig)
    ∧ In (Plot.CellText 0 1 "0.25") (Plot.artists fig).
Proof.
  assert (Hsaved : ∃ fig, Plot.saved (small_plot [2; 3]%Z)
                          = Some ("mutation_frequency_heatmap.png", fig)).
  { eexists. vm_compute. reflexivity. }
  destruct Hsaved as [fig Hfig].
  exists fig. split; [exact Hfig|].
  apply (labels_of_positive_cells (fun _ => None) small_fs "mutation_frequencies.csv"
           [2; 3]%Z small_highlight "mutation_frequency_heatmap.png" _ fig small_table
           0 1 "0.25" eq_refl Hfig).
  eexists "C", 2%Z, _. split; [reflexivity|]. split; [reflexivity|].
  split; [reflexivity|]. split; reflexivity.
Defined.

Lemma frames_follow_highlights_witness :
  ∃ fig,
    Plot.saved (small_plot [2; 3]%Z) = Some ("mutation_frequency_heatmap.png", fig)
    ∧ In (Plot.HighlightRect 0 1) (Plot.artists fig).
Proof.
  assert (Hsaved : ∃ fig, Plot.saved (small_plot [2; 3]%Z)
                          = Some ("mutation_frequency_heatmap.png", fig)).
  { eexists. vm_compute. reflexivity. }
  destruct Hsaved as [fig Hfig].
  exists fig. split; [exact Hfig|].
  apply (frames_follow_highlights (fun _ => None) small_fs "mutation_frequencies.csv"
           [2; 3]%Z small_highlight "mutation_frequency_heatmap.png" _ fig small_table
           0 1 eq_refl Hfig).
  exists "C", 2%Z, ["C"]. split; [reflexivity|]. split; [reflexivity|].
  split; [reflexivity|]. by left.
Defined.

(** A table with the frequencies 1/1024 and 1/4096 on its first row. *)
Definition faint_table : Plot.DataFrame :=
  {| Plot.columns := ["A"; "C"];
     Plot.rows :=
       [ (1%Z, fun aa => if String.eqb aa "A" then (1 # 1024)%Q else (1 # 4096)%Q);
         (2%Z, fun aa => (1 # 2)%Q) ] |}.

Lemma faint_cell_label_witness :
  ∃ fig,
    Plot.saved (Plot.plot_mutation_heatmap_v6 (fun _ => None)
                  (fun _ => Plot.Indexed faint_table) "faint.csv" [2; 1]%Z ∅ "faint.png")
    = Some ("faint.png", fig)
    ∧ In (Plot.CellText 1 0 "0.00") (Plot.artists fig).
Proof.
  assert (Hsaved : ∃ fig,
            Plot.saved (Plot.plot_mutation_heatmap_v6 (fun _ => None)
                          (fun _ => Plot.Indexed faint_table) "faint.csv" [2; 1]%Z ∅
                          "faint.png")
            = Some ("faint.png", fig)).
  { eexists. vm_compute. reflexivity. }
  destruct Hsaved as [fig Hfig].
  exists fig. split; [exact Hfig|].
  apply (faint_cell_label (fun _ => None) (fun _ => Plot.Indexed faint_table) "faint.csv"
           [2; 1]%Z ∅ "faint.png" _ fig faint_table 1 0 "A" 1%Z _
           eq_refl Hfig eq_refl eq_refl eq_refl); vm_compute; reflexivity.
Defined.

Lemma position_line_causes_witness :
  (small_fs "mutation_frequencies.csv" = Plot.NoPositionColumn
   ∧ Plot.KeyError (Plot.Labels [7%Z]) = Plot.KeyError (Plot.Column "Position"))
  ∨ (∃ df not_found,
       small_fs "mutation_frequencies.csv" = Plot.Indexed df
       ∧ Plot.KeyError (Plot.Labels [7%Z]) = Plot.KeyError (Plot.Labels not_found)
       ∧ not_found ≠ []
       ∧ ∀ q, In q not_found <-> In q [2; 7]%Z ∧ ¬ In q (Plot.index df))
  ∨ (∃ fig k, (fun _ : Plot.Figure => @None Plot.exception) fig
               = Some (Plot.KeyError (Plot.Labels [7%Z]))
              ∧ Plot.KeyError (Plot.Labels [7%Z]) = Plot.KeyError k).
Proof.
  apply (position_line_causes (fun _ => None) small_fs "mutation_frequencies.csv"
           [2; 7]%Z small_highlight "mutation_frequency_heatmap.png").
  vm_compute. reflexivity.
Defined.
